(** * sg-car-advisor: the recommendation ranking pipeline

    A shallow embedding of [filters.py] (the profile-to-filter builder),
    [db_search.py] (the DuckDB query and its relaxation ladder) and
    [value_model.py] (the batch-relative value score), with the
    properties the specification states about them.

    Python dictionaries are finite maps from strings to dynamically typed
    values; Python exceptions are the [Raise] branch of a result type.
    The binary64 arithmetic of the filter builder ([int(budget * 0.8)])
    is modelled exactly on integers; the arithmetic of the value score is
    modelled over exact rationals with an explicit "not a number". *)

From Stdlib Require Import ZArith QArith Qround Lia Lqa Bool List Ascii String.
From stdpp Require Import base option list sorting gmap strings.

Local Open Scope string_scope.
Local Open Scope Z_scope.

(** ** Python values, exceptions and strings *)

Module Py.

(** The values a profile or a filter dictionary holds. *)
Inductive pyval : Type :=
| PNone
| PInt (n : Z)
| PStr (s : string).

Inductive exn : Type :=
| TypeError
| AttributeError
| ValueError
| OverflowError
| DatabaseError.

Inductive result (A : Type) : Type :=
| Ok (a : A)
| Raise (e : exn).
Arguments Ok {A} a.
Arguments Raise {A} e.

Definition bind {A B : Type} (r : result A) (k : A -> result B) : result B :=
  match r with
  | Ok a => k a
  | Raise e => Raise e
  end.

#[global] Instance result_ret : MRet result := fun A a => Ok a.
#[global] Instance result_bind : MBind result := fun A B k r => bind r k.

Definition returns {A : Type} (r : result A) : Prop := exists a, r = Ok a.

Definition pyval_eqb (v w : pyval) : bool :=
  match v, w with
  | PNone, PNone => true
  | PInt a, PInt b => Z.eqb a b
  | PStr s, PStr t => String.eqb s t
  | _, _ => false
  end.

(** [d.get(key)] and [d.get(key, default)]: the default is used only when
    the key is absent; a key bound to [None] yields [None]. *)
Definition get (d : gmap string pyval) (key : string) : pyval :=
  match d !! key with
  | Some v => v
  | None => PNone
  end.

Definition get_default (d : gmap string pyval) (key : string) (default : pyval) : pyval :=
  match d !! key with
  | Some v => v
  | None => default
  end.

(** [v == "literal"] never raises, whatever the type of [v]. *)
Definition is_str (v : pyval) (lit : string) : bool := pyval_eqb v (PStr lit).

(** Truthiness, as tested by [if v:]. *)
Definition truthy (v : pyval) : bool :=
  match v with
  | PNone => false
  | PInt n => negb (Z.eqb n 0)
  | PStr s => negb (String.eqb s EmptyString)
  end.

(** *** Strings (ASCII) *)

Definition lower_ascii (c : ascii) : ascii :=
  let n := nat_of_ascii c in
  if (Nat.leb 65 n && Nat.leb n 90)%bool then ascii_of_nat (n + 32) else c.

Fixpoint lower (s : string) : string :=
  match s with
  | EmptyString => EmptyString
  | String c s' => String (lower_ascii c) (lower s')
  end.

(** [sub in s]. *)
Fixpoint contains (sub s : string) : bool :=
  if String.prefix sub s then true
  else match s with
       | EmptyString => false
       | String _ s' => contains sub s'
       end.

(** [s.replace(old, new)] for a non-empty [old]: occurrences are replaced
    from left to right without overlap. [skip] counts the characters of
    the occurrence just replaced that are still to be passed over. *)
Fixpoint replace_from (old new : string) (skip : nat) (s : string) : string :=
  match s with
  | EmptyString => EmptyString
  | String c s' =>
      match skip with
      | S k => replace_from old new k s'
      | O =>
          if String.prefix old s
          then String.append new (replace_from old new (Nat.pred (String.length old)) s')
          else String c (replace_from old new O s')
      end
  end.

Definition replace (old new s : string) : string := replace_from old new O s.

Definition is_space (c : ascii) : bool :=
  let n := nat_of_ascii c in
  ((Nat.leb 9 n && Nat.leb n 13) || (Nat.leb 28 n && Nat.leb n 32))%bool.

Fixpoint lstrip (s : string) : string :=
  match s with
  | EmptyString => EmptyString
  | String c s' => if is_space c then lstrip s' else s
  end.

Fixpoint rstrip (s : string) : string :=
  match s with
  | EmptyString => EmptyString
  | String c s' =>
      match rstrip s' with
      | EmptyString => if is_space c then EmptyString else String c EmptyString
      | r => String c r
      end
  end.

Definition strip (s : string) : string := rstrip (lstrip s).

(** [v.lower()] on a dynamically typed value. *)
Definition str_lower (v : pyval) : result string :=
  match v with
  | PStr s => Ok (lower s)
  | _ => Raise AttributeError
  end.

(** *** binary64 floats, as far as [int(n * c)] needs them

    A finite float is [m * 2^e] with [|m| <= 2^53]. [round_even n e]
    rounds the exact value [n * 2^e] to the nearest float, ties to even,
    and overflows to infinity from [2^1024] on. The values formed here
    are integers times [2^-53] or [2^-52], so the subnormal range is
    never reached. *)
Inductive pyfloat : Type :=
| FFin (m e : Z)
| FInf (neg : bool)
| FNaN.

(** The number of low bits of [a] that do not fit a 53-bit mantissa. *)
Definition shift_of (a : Z) : Z := Z.max 0 (Z.log2 a - 52).

Definition round_even (n e : Z) : pyfloat :=
  let a := Z.abs n in
  let s := shift_of a in
  let q := a / 2 ^ s in
  let r := a mod 2 ^ s in
  let up := ((2 ^ s <? 2 * r) || ((2 ^ s =? 2 * r) && Z.odd q))%bool in
  let q' := if up then q + 1 else q in
  if (0 <? q') && (1024 <=? Z.log2 q' + s + e) then FInf (n <? 0)
  else FFin (Z.sgn n * q') (s + e).

(** [float(n)] raises when [n] is too large. *)
Definition float_of_int (n : Z) : result pyfloat :=
  match round_even n 0 with
  | FFin m e => Ok (FFin m e)
  | _ => Raise OverflowError
  end.

Definition fmul (x y : pyfloat) : pyfloat :=
  match x, y with
  | FFin m1 e1, FFin m2 e2 => round_even (m1 * m2) (e1 + e2)
  | FNaN, _ | _, FNaN => FNaN
  | FInf s, FFin m _ | FFin m _, FInf s =>
      if m =? 0 then FNaN else FInf (xorb s (m <? 0))
  | FInf s1, FInf s2 => FInf (xorb s1 s2)
  end.

(** [v * c] for a float constant [c]: an [int] is converted first;
    [None * c] and [str * c] raise. *)
Definition mul_float (v : pyval) (c : pyfloat) : result pyfloat :=
  match v with
  | PInt n => x ← float_of_int n; Ok (fmul x c)
  | _ => Raise TypeError
  end.

(** [int(x)] truncates toward zero. *)
Definition int_of_float (x : pyfloat) : result Z :=
  match x with
  | FFin m e => Ok (if 0 <=? e then m * 2 ^ e else Z.quot m (2 ^ (- e)))
  | FInf _ => Raise OverflowError
  | FNaN => Raise ValueError
  end.

(** The literals [0.8] and [1.2]. *)
Definition f0_8 : pyfloat := FFin 7205759403792794 (-53).
Definition f1_2 : pyfloat := FFin 5404319552844595 (-52).

(** [int(v * c)]. *)
Definition int_mul_float (v : pyval) (c : pyfloat) : result Z :=
  x ← mul_float v c; int_of_float x.

(** [int(s)] for a string: surrounding whitespace, an optional sign, then
    decimal digits, where single underscores may separate digits (the
    interpreter's cap on the number of digits is not modelled). *)
Definition digit_of (c : ascii) : option Z :=
  let n := nat_of_ascii c in
  if (Nat.leb 48 n && Nat.leb n 57)%bool then Some (Z.of_nat n - 48) else None.

Fixpoint parse_digits (acc : Z) (after_digit : bool) (s : string) : option Z :=
  match s with
  | EmptyString => if after_digit then Some acc else None
  | String c s' =>
      match digit_of c with
      | Some d => parse_digits (10 * acc + d) true s'
      | None =>
          if (Ascii.eqb c "_" && after_digit)%bool
          then parse_digits acc false s'
          else None
      end
  end.

Definition int_of_string (s : string) : result Z :=
  let t := strip s in
  let parsed :=
    match t with
    | String "+" r => parse_digits 0 false r
    | String "-" r => Z.opp <$> parse_digits 0 false r
    | _ => parse_digits 0 false t
    end in
  match parsed with
  | Some n => Ok n
  | None => Raise ValueError
  end.

(** [int(v)]. *)
Definition int_of (v : pyval) : result Z :=
  match v with
  | PInt n => Ok n
  | PStr s => int_of_string s
  | PNone => Raise TypeError
  end.

(** [v <= n] and [v >= n] for an integer literal [n]. *)
Definition le_int (v : pyval) (n : Z) : result bool :=
  match v with
  | PInt a => Ok (a <=? n)
  | _ => Raise TypeError
  end.

Definition ge_int (v : pyval) (n : Z) : result bool :=
  match v with
  | PInt a => Ok (n <=? a)
  | _ => Raise TypeError
  end.

End Py.


Import Py.

(** ** filters.py *)

Module Filters.

(** [_derive_price_band], the price band of [profile_to_filters]. *)
Definition _derive_price_band (budget_sgd : pyval) : result (pyval * pyval) :=
  if negb (truthy budget_sgd) then Ok (PNone, PNone)
  else
    nonpos ← le_int budget_sgd 0;
    if (nonpos : bool) then Ok (PNone, PNone)
    else
      min_p ← int_mul_float budget_sgd f0_8;
      max_p ← int_mul_float budget_sgd f1_2;
      Ok (PInt min_p, PInt max_p).

(** [build_filters_from_profile]: the module defines it twice and the
    later definition, the one embedded here, is the one in force. *)
Definition build_filters_from_profile (profile : gmap string pyval)
  : result (gmap string pyval) :=
  (* 1. budget *)
  let budget := get_default profile "budget_sgd" (PInt 0) in
  min_price ← int_mul_float budget f0_8;
  max_price ← int_mul_float budget f1_2;
  (* 2. year preference *)
  let age_pref := get_default profile "age_preference" (PStr "balanced") in
  let years :=
    if is_str age_pref "newest" then (2020, 2025)
    else if is_str age_pref "older_ok" then (2012, 2025)
    else (2015, 2025) in
  (* 3. mileage *)
  let mileage_pref := get_default profile "mileage_tolerance" (PStr "medium") in
  let max_mileage :=
    if is_str mileage_pref "low" then 60000
    else if is_str mileage_pref "high" then 180000
    else 120000 in
  (* 4. owners *)
  let owner_pref := get_default profile "owner_tolerance" (PStr "medium") in
  let max_owners :=
    if is_str owner_pref "low" then 1
    else if is_str owner_pref "high" then 5
    else 3 in
  (* 5. brand *)
  let brand0 := get_default profile "brand_bias" (PStr EmptyString) in
  lowered ← str_lower brand0;
  brand ← (if contains "prefer" lowered
           then again ← str_lower brand0;
                Ok (strip (replace "prefer" EmptyString (replace "prefers" EmptyString again)))
           else Ok EmptyString);
  (* 6. body type *)
  let body_pref := get_default profile "body_type_pref" (PStr EmptyString) in
  let body_code :=
    if is_str body_pref "sedan_or_hatchback" then PInt 4
    else if is_str body_pref "mpv" then PInt 7
    else if is_str body_pref "suv" then PInt 3
    else PNone in
  (* 7. depreciation *)
  let dep_pref := get_default profile "running_cost_priority" (PStr "medium") in
  let min_dep := if is_str dep_pref "low" then PNone
                 else if is_str dep_pref "high" then PInt 15000 else PNone in
  let max_dep := if is_str dep_pref "low" then PInt 15000 else PNone in
  (* 8. EV engine code *)
  let engine_cc_category :=
    if is_str (get profile "fuel_pref") "ev" then PInt 0 else PNone in
  (* 9. family size override *)
  large ← ge_int (get_default profile "family_size" (PInt 0)) 5;
  let body_code :=
    if ((large : bool) && pyval_eqb body_code PNone)%bool then PInt 7 else body_code in
  Ok (<["brand" := PStr brand]>
      (<["min_price" := PInt min_price]>
      (<["max_price" := PInt max_price]>
      (<["min_year" := PInt (fst years)]>
      (<["max_year" := PInt (snd years)]>
      (<["min_mileage" := PInt 0]>
      (<["max_mileage" := PInt max_mileage]>
      (<["max_owners" := PInt max_owners]>
      (<["engine_cc_category" := engine_cc_category]>
      (<["body_type_code" := body_code]>
      (<["min_depreciation" := min_dep]>
      (<["max_depreciation" := max_dep]> ∅)))))))))))).

(** The bounds of a pair are in order when both are integers. *)
Definition ordered (f : gmap string pyval) (lo hi : string) : Prop :=
  forall a b, get f lo = PInt a -> get f hi = PInt b -> a <= b.

(** The price band in the words of the specification, over exact
    rationals: [floor(budget * 0.8)] and [ceil(budget * 1.2)]. *)
Definition spec_min_price (budget : Z) : Z := Qfloor (inject_Z budget * (8 # 10)).
Definition spec_max_price (budget : Z) : Z := Qceiling (inject_Z budget * (12 # 10)).

(** What the code computes for the upper bound instead. *)
Definition floor_max_price (budget : Z) : Z := Qfloor (inject_Z budget * (12 # 10)).

(** The profiles on which the builder raises nothing: an integer budget
    within the range of binary64, a string [brand_bias] and an integer
    [family_size], each of which may also be absent. The other fields are
    only compared with string literals and may hold anything. *)
Definition absent_or (P : pyval -> Prop) (profile : gmap string pyval)
    (key : string) : Prop :=
  match profile !! key with
  | Some v => P v
  | None => True
  end.

Definition is_budget (v : pyval) : Prop :=
  match v with
  | PInt n => Z.abs n < 2 ^ 1000
  | _ => False
  end.

Definition is_int (v : pyval) : Prop :=
  match v with
  | PInt _ => True
  | _ => False
  end.

Definition is_string (v : pyval) : Prop :=
  match v with
  | PStr _ => True
  | _ => False
  end.

Definition typed_profile (profile : gmap string pyval) : Prop :=
  absent_or is_budget profile "budget_sgd"
  /\ absent_or is_string profile "brand_bias"
  /\ absent_or is_int profile "family_size".

(** A sample profile. *)
Definition demo_profile : gmap string pyval :=
  <["budget_sgd" := PInt 100000]> (<["age_preference" := PStr "balanced"]>
  (<["mileage_tolerance" := PStr "medium"]> (<["owner_tolerance" := PStr "medium"]>
  (<["body_type_pref" := PStr "suv"]> ∅)))).

End Filters.

(** ** db_search.py *)

Module DbSearch.

(** A row of the [car_listings] table. Every column may be NULL. The
    query tests [make], [price_sgd], [year] and [mileage_km];
    [listing_url] stands for the columns it only selects. *)
Record Row : Type := mkRow {
  make : option string;
  price_sgd : option Z;
  year : option Z;
  mileage_km : option Z;
  listing_url : string
}.

(** One entry of the [where] list together with its entry of [params]. *)
Inductive clause : Type :=
| MakeLike (pattern : string)   (* LOWER(make) LIKE ? *)
| PriceGe (n : Z)               (* price_sgd >= ? *)
| PriceLe (n : Z)               (* price_sgd <= ? *)
| YearGe (n : Z)                (* year >= ? *)
| YearLe (n : Z)                (* year <= ? *)
| MileageGe (n : Z)             (* mileage_km >= ? *)
| MileageLe (n : Z).            (* mileage_km <= ? *)

(** SQL [LIKE]: [%] matches any run of characters, [_] any one
    character, and there is no escape character. *)
Fixpoint like (pattern s : string) : bool :=
  match pattern with
  | EmptyString => match s with EmptyString => true | _ => false end
  | String p pattern' =>
      if Ascii.eqb p "%" then
        (fix any (t : string) : bool :=
           like pattern' t
           || match t with
              | EmptyString => false
              | String _ t' => any t'
              end) s
      else
        match s with
        | EmptyString => false
        | String c s' => (Ascii.eqb p "_" || Ascii.eqb p c) && like pattern' s'
        end
  end.

(** A comparison with NULL is not true. *)
Definition cmp (test : Z -> bool) (column : option Z) : bool :=
  match column with
  | Some x => test x
  | None => false
  end.

Definition holds (c : clause) (r : Row) : bool :=
  match c with
  | MakeLike pattern =>
      match make r with
      | Some m => like pattern (lower m)
      | None => false
      end
  | PriceGe n => cmp (fun x => n <=? x) (price_sgd r)
  | PriceLe n => cmp (fun x => x <=? n) (price_sgd r)
  | YearGe n => cmp (fun x => n <=? x) (year r)
  | YearLe n => cmp (fun x => x <=? n) (year r)
  | MileageGe n => cmp (fun x => n <=? x) (mileage_km r)
  | MileageLe n => cmp (fun x => x <=? n) (mileage_km r)
  end.

(** [ORDER BY price_sgd ASC]: NULL prices sort last. *)
Definition price_le (r1 r2 : Row) : Prop :=
  match price_sgd r1, price_sgd r2 with
  | Some x, Some y => x <= y
  | _, None => True
  | None, Some _ => False
  end.

#[global] Instance price_le_dec r1 r2 : Decision (price_le r1 r2).
Proof.
  unfold price_le. destruct (price_sgd r1), (price_sgd r2); apply _.
Defined.

(** The statement the function sends: its [WHERE] conjuncts and its
    [LIMIT]. *)
Record statement : Type := mkStatement {
  where_ : list clause;
  limit_ : Z
}.

(** What the database does with a statement. A negative [LIMIT] is
    rejected, which Python sees as an exception. *)
Definition execute (store : list Row) (sql : statement) : result (list Row) :=
  if limit_ sql <? 0 then Raise DatabaseError
  else
    let matching := filter (fun r => forallb (fun c => holds c r) (where_ sql) = true) store in
    Ok (take (Z.to_nat (limit_ sql)) (merge_sort price_le matching)).

(** An optional bound: [if v is not None: where.append(..); params.append(int(v))]. *)
Definition bound (mk : Z -> clause) (v : pyval) : result (list clause) :=
  match v with
  | PNone => Ok []
  | _ => n ← int_of v; Ok [mk n]
  end.

(** The [where]/[params] lists [search_cars_in_duckdb] builds. [filters]
    may be [None]: [filters or {}]. *)
Definition build_where (filters : option (gmap string pyval)) : result (list clause) :=
  let f := default ∅ filters in
  let brand := get f "brand" in
  let min_price := get f "min_price" in
  let max_price := get f "max_price" in
  let min_year := get f "min_year" in
  let max_year := get f "max_year" in
  let min_mileage := get f "min_mileage" in
  let max_mileage := get f "max_mileage" in
  c0 ← (if truthy brand
        then b ← str_lower brand; Ok [MakeLike (String "%" (String.append b "%"))]
        else Ok [] : result (list clause));
  c1 ← bound PriceGe min_price;
  c2 ← bound PriceLe max_price;
  c3 ← bound YearGe min_year;
  c4 ← bound YearLe max_year;
  c5 ← bound MileageGe min_mileage;
  c6 ← bound MileageLe max_mileage;
  Ok (c0 ++ c1 ++ c2 ++ c3 ++ c4 ++ c5 ++ c6)%list.

Definition search_cars_in_duckdb (store : list Row)
    (filters : option (gmap string pyval)) (limit : Z) : result (list Row) :=
  w ← build_where filters;
  execute store (mkStatement w limit).

(** [df.empty]. *)
Definition empty (df : list Row) : bool :=
  match df with
  | [] => true
  | _ => false
  end.

(** The filters of the second and third stage. *)
Definition relaxed_of (filters : option (gmap string pyval)) : gmap string pyval :=
  <["max_mileage" := PNone]>
  (<["min_mileage" := PNone]>
  (<["max_year" := PNone]>
  (<["min_year" := PNone]> (default ∅ filters)))).

Definition super_relaxed_of (relaxed : gmap string pyval) : gmap string pyval :=
  <["max_price" := get relaxed "max_price"]>
  (<["min_price" := get relaxed "min_price"]>
  (<["brand" := get relaxed "brand"]> ∅)).

Definition search_with_fallback (store : list Row)
    (filters : option (gmap string pyval)) (limit : Z) : result (list Row) :=
  (* 1. strict *)
  df ← search_cars_in_duckdb store filters limit;
  if negb (empty df) then Ok df
  else
    (* 2. relaxed: drop year and mileage *)
    let relaxed := relaxed_of filters in
    df ← search_cars_in_duckdb store (Some relaxed) limit;
    if negb (empty df) then Ok df
    else
      (* 3. super-relaxed: only price, and brand if given *)
      let super_relaxed := super_relaxed_of relaxed in
      df ← search_cars_in_duckdb store (Some super_relaxed) limit;
      if negb (empty df) then Ok df
      else
        (* 4. final fallback *)
        search_cars_in_duckdb store (Some ∅) limit.

(** The ladder in the words of the specification: the first stage that
    yields a non-empty result is the answer, and the last stage is the
    answer when none does. *)
Fixpoint first_nonempty (stages : list (result (list Row)))
    (last : result (list Row)) : result (list Row) :=
  match stages with
  | [] => last
  | stage :: rest =>
      df ← stage;
      if empty df then first_nonempty rest last else Ok df
  end.

(** A brand without [LIKE] wildcards. *)
Fixpoint wildcard_free (s : string) : bool :=
  match s with
  | EmptyString => true
  | String c s' => negb (Ascii.eqb c "%") && negb (Ascii.eqb c "_") && wildcard_free s'
  end.

(** The filters the builder's schema allows: [brand] a string or [None],
    each bound an integer or [None]. *)
Definition str_or_none (v : pyval) : Prop :=
  match v with
  | PInt _ => False
  | _ => True
  end.

Definition int_or_none (v : pyval) : Prop :=
  match v with
  | PStr _ => False
  | _ => True
  end.

Definition well_typed (f : gmap string pyval) : Prop :=
  str_or_none (get f "brand")
  /\ int_or_none (get f "min_price") /\ int_or_none (get f "max_price")
  /\ int_or_none (get f "min_year") /\ int_or_none (get f "max_year")
  /\ int_or_none (get f "min_mileage") /\ int_or_none (get f "max_mileage").

(** Sample stores and filters. *)
Definition demo_store : list Row :=
  [ mkRow (Some "BMW") (Some 150000) (Some 2019) (Some 30000) "listing/1";
    mkRow (Some "Toyota") (Some 95000) (Some 2018) None "listing/2";
    mkRow (Some "Toyota") (Some 85000) (Some 2016) (Some 90000) "listing/3" ].

Definition demo_filters : gmap string pyval :=
  <["brand" := PStr "kia"]> (<["min_price" := PInt 90000]>
  (<["max_owners" := PInt 1]> ∅)).

Definition wildcard_store : list Row :=
  [ mkRow (Some "BMW") (Some 150000) (Some 2019) (Some 30000) "listing/1" ].

(** Filters that hold every constraint the builder sets, with a first
    year no row of [demo_store] reaches, and the brand and price part of
    them. *)
Definition owner_filters : gmap string pyval :=
  <["brand" := PStr "Toyota"]> (<["min_price" := PInt 80000]>
  (<["min_year" := PInt 2030]> (<["max_owners" := PInt 1]>
  (<["engine_cc_category" := PInt 0]> (<["body_type_code" := PInt 4]>
  (<["max_depreciation" := PInt 15000]> ∅)))))).

Definition brand_price_filters : gmap string pyval :=
  <["brand" := PStr "Toyota"]> (<["min_price" := PInt 80000]> ∅).

(** The keys the query reads. *)
Definition keys_read : list string :=
  ["brand"; "min_price"; "max_price"; "min_year"; "max_year";
   "min_mileage"; "max_mileage"].

End DbSearch.

(** ** value_model.py *)

Module ValueModel.

Local Open Scope Q_scope.

(** An entry of a numeric column as it reaches the scorer. *)
Inductive cell : Type :=
| CNum (q : Q)        (* a number, or text that reads as one *)
| CInf (neg : bool)   (* an infinity *)
| CNull               (* missing *)
| CText.              (* text that is not a number *)

(** A float64 entry; the rationals stand for the finite ones. *)
Inductive fval : Type :=
| NaN
| Inf (neg : bool)
| Num (q : Q).

(** [pd.to_numeric(.., errors="coerce")]. *)
Definition to_numeric (c : cell) : fval :=
  match c with
  | CNum q => Num q
  | CInf neg => Inf neg
  | CNull => NaN
  | CText => NaN
  end.

(** A listing, reduced to the columns the scorer reads. A column the
    frame lacks is filled with NaN, which is the frame whose entries in
    that column are all [CNull]. A batch is a list of listings: the frame
    carries the row labels 0, 1, 2, ... that the query gives it. *)
Record Listing : Type := mkListing {
  price_sgd : cell;
  mileage_km : cell;
  depreciation_per_year : cell;
  year : cell
}.

(** [s.replace([inf, -inf], nan)]: [None] is NaN from here on. *)
Definition known (v : fval) : option Q :=
  match v with
  | Num q => Some q
  | _ => None
  end.

Definition isna (x : option Q) : bool :=
  match x with
  | None => true
  | Some _ => false
  end.

(** [s.min()] and [s.max()] skip NaN. *)
Definition pick (better : Q -> Q -> bool) (x acc : option Q) : option Q :=
  match x, acc with
  | Some a, Some b => Some (if better a b then a else b)
  | Some a, None => Some a
  | None, _ => acc
  end.

Definition series_min (s : list (option Q)) : option Q :=
  foldr (pick (fun a b => Qle_bool a b)) None s.

Definition series_max (s : list (option Q)) : option Q :=
  foldr (pick (fun a b => Qle_bool b a)) None s.

Definition half : Q := 1 # 2.

Definition _normalize (series : list fval) (reverse : bool) : list (option Q) :=
  let s := map known series in
  if forallb isna s then replicate (length s) (Some half)
  else
    match series_min s, series_max s with
    | Some min_v, Some max_v =>
        if Qeq_bool max_v min_v then replicate (length s) (Some half)
        else
          map (fun x =>
                 match x with
                 | Some x =>
                     let norm := (x - min_v) / (max_v - min_v) in
                     Some (if reverse then 1 - norm else norm)
                 | None => None
                 end) s
    | _, _ => replicate (length s) (Some half)
    end.

(** Float arithmetic with NaN. *)
Definition fadd (a b : option Q) : option Q :=
  match a, b with
  | Some x, Some y => Some (x + y)
  | _, _ => None
  end.

Definition fscale (w : Q) (a : option Q) : option Q :=
  match a with
  | Some x => Some (w * x)
  | None => None
  end.

(** [a >= b] on floats: false as soon as one side is NaN. *)
Definition fge (a b : option Q) : Prop :=
  match a, b with
  | Some x, Some y => y <= x
  | _, _ => False
  end.

Definition feq (a b : option Q) : Prop :=
  match a, b with
  | Some x, Some y => x == y
  | None, None => True
  | _, _ => False
  end.

Definition w_price : Q := 2 # 5.
Definition w_mileage : Q := 1 # 4.
Definition w_depreciation : Q := 1 # 5.
Definition w_year : Q := 3 # 20.

Definition composite (vp vm vd vy : option Q) : option Q :=
  fscale 100
    (fadd (fadd (fadd (fscale w_price vp) (fscale w_mileage vm))
                (fscale w_depreciation vd))
          (fscale w_year vy)).

(** [rank(ascending=False, method="dense")]: one more than the number of
    distinct scores above; NaN keeps NaN. *)
Fixpoint distinct (l : list Q) : list Q :=
  match l with
  | [] => []
  | x :: l' => x :: filter (fun y => Qeq_bool x y = false) (distinct l')
  end.

Definition rank_dense_desc (scores : list (option Q)) : list (option Z) :=
  let present := omap id scores in
  map (fun s =>
         match s with
         | Some x =>
             Some (1 + Z.of_nat (length (distinct
                     (filter (fun y => Qle_bool y x = false) present))))%Z
         | None => None
         end) scores.

(** [df[col] = pd.to_numeric(df[col], errors="coerce")] rewrites each of
    the four columns of the copy: an entry that is text and no number
    becomes missing, every other entry keeps its value. *)
Definition coerce_cell (c : cell) : cell :=
  match c with
  | CText => CNull
  | _ => c
  end.

Definition ensure_numeric (r : Listing) : Listing :=
  mkListing (coerce_cell (price_sgd r)) (coerce_cell (mileage_km r))
            (coerce_cell (depreciation_per_year r)) (coerce_cell (year r)).

(** A row of the scored frame: the listing with its four columns made
    numeric, and the six columns added. *)
Record Scored : Type := mkScored {
  listing : Listing;
  value_price : option Q;
  value_mileage : option Q;
  value_depreciation : option Q;
  value_year : option Q;
  value_score : option Q;
  value_rank : option Z
}.

(** Assigning a series to a column aligns on the row label; a label the
    series lacks reads NaN. *)
Definition at_label {A : Type} (col : list (option A)) (i : nat) : option A :=
  match col !! i with
  | Some v => v
  | None => None
  end.

Definition column (field : Listing -> cell) (df : list Listing) : list fval :=
  map (fun r => to_numeric (field r)) df.

Definition compute_value_scores (df : list Listing) : list Scored :=
  (* ensure numeric *)
  let df := map ensure_numeric df in
  (* normalized scores *)
  let vp := _normalize (column price_sgd df) true in
  let vm := _normalize (column mileage_km df) true in
  let vd := _normalize (column depreciation_per_year df) true in
  let vy := _normalize (column year df) false in
  let vs := imap (fun i _ => composite (at_label vp i) (at_label vm i)
                                       (at_label vd i) (at_label vy i)) df in
  let vr := rank_dense_desc vs in
  imap (fun i r =>
          mkScored r (at_label vp i) (at_label vm i) (at_label vd i)
                   (at_label vy i) (at_label vs i) (at_label vr i)) df.

(** [value_score] written out with its literal weights. *)
Definition weighted_score (vp vm vd vy : option Q) : option Q :=
  fscale 100
    (fadd (fadd (fadd (fscale (40 # 100) vp) (fscale (25 # 100) vm))
                (fscale (20 # 100) vd))
          (fscale (15 # 100) vy)).

(** The [value_score] column of [compute_value_scores]. *)
Definition score_column (df : list Listing) : list (option Q) :=
  imap (fun i _ =>
          composite (at_label (_normalize (column price_sgd df) true) i)
                    (at_label (_normalize (column mileage_km df) true) i)
                    (at_label (_normalize (column depreciation_per_year df) true) i)
                    (at_label (_normalize (column year df) false) i)) df.

(** *** The normalisation as the specification words it *)

(** All known values of the column agree (none known included). *)
Definition degenerate (col : list fval) : Prop :=
  forall x y, In (Some x) (map known col) -> In (Some y) (map known col) -> x == y.

Definition is_min (col : list fval) (lo : Q) : Prop :=
  In (Some lo) (map known col) /\ forall y, In (Some y) (map known col) -> lo <= y.

Definition is_max (col : list fval) (hi : Q) : Prop :=
  In (Some hi) (map known col) /\ forall y, In (Some y) (map known col) -> y <= hi.

(** [norm = (x - min) / (max - min)] over the batch, 0.5 for every row of
    a degenerate column, and nothing for an unknown value otherwise. *)
Inductive norm_of (col : list fval) : fval -> option Q -> Prop :=
| norm_neutral v :
    degenerate col -> norm_of col v (Some half)
| norm_minmax x lo hi :
    ~ degenerate col -> is_min col lo -> is_max col hi ->
    norm_of col (Num x) (Some ((x - lo) / (hi - lo)))
| norm_unknown v :
    ~ degenerate col -> known v = None -> norm_of col v None.

(** Lower is better: [1 - norm]. *)
Definition inverted (n : option Q) : option Q :=
  match n with
  | Some x => Some (1 - x)
  | None => None
  end.

(** An attribute of a listing can be scored when its value is known or
    its column is degenerate. *)
Definition scorable (col : list fval) (v : fval) : Prop :=
  known v <> None \/ degenerate col.

(** Two entries are the same attribute value: the same number, or both
    unknown. *)
Definition same (c1 c2 : cell) : Prop :=
  feq (known (to_numeric c1)) (known (to_numeric c2)).

(** The entry [_normalize] computes for a row whose value is [v]. *)
Definition norm_at (col : list fval) (reverse : bool) (v : fval) : option Q :=
  let s := map known col in
  if forallb isna s then Some half
  else
    match series_min s, series_max s with
    | Some min_v, Some max_v =>
        if Qeq_bool max_v min_v then Some half
        else
          match known v with
          | Some x =>
              let norm := (x - min_v) / (max_v - min_v) in
              Some (if reverse then 1 - norm else norm)
          | None => None
          end
    | _, _ => Some half
    end.

(** Sample batches. *)
Definition car (price mileage : cell) : Listing :=
  mkListing price mileage CNull (CNum 2018).

Definition demo_batch : list Listing :=
  [ car (CNum 85000) (CNum 40000);
    car (CNum 95000) (CNum 40000);
    car (CNum 99000) (CNum 90000) ].

Definition batch_missing_price : list Listing :=
  [ car CNull (CNum 40000);
    car (CNum 95000) (CNum 40000);
    car (CNum 99000) (CNum 90000) ].

Definition batch_missing_mileage : list Listing :=
  [ car (CNum 1) CNull;
    car (CNum 2) CNull;
    car (CNum 3) (CNum 5);
    car (CNum 3) (CNum 7) ].

End ValueModel.

(** ** filters.py: the dataclass route *)

Module ProfileToFilters.

(** [v or default]. *)
Definition or_else (v default : pyval) : pyval :=
  if truthy v then v else default.

(** [(v or "").lower()] and [(v or "").strip().lower()]. *)
Definition lower_or_empty (v : pyval) : result string :=
  str_lower (or_else v (PStr EmptyString)).

Definition clean_or_empty (v : pyval) : result string :=
  match or_else v (PStr EmptyString) with
  | PStr s => Ok (lower (strip s))
  | _ => Raise AttributeError
  end.

(** The [CarFilters] dataclass. *)
Record CarFilters : Type := mkCarFilters {
  brand : string;
  min_price : pyval;
  max_price : pyval;
  min_year : pyval;
  max_year : pyval;
  min_mileage : pyval;
  max_mileage : pyval;
  max_owners : pyval;
  engine_cc_category : pyval;
  body_type_code : pyval;
  min_depreciation : pyval;
  max_depreciation : pyval
}.

Section Derivations.

(** [CURRENT_YEAR = datetime.now().year], read once when the module is
    loaded. *)
Variable CURRENT_YEAR : Z.

Definition _derive_year_range (age_pref : pyval) : result (Z * Z) :=
  let max_year := CURRENT_YEAR in
  age_pref ← lower_or_empty age_pref;
  let min_year :=
    if String.eqb age_pref "latest_tech" then CURRENT_YEAR - 6
    else if String.eqb age_pref "value_for_money" then CURRENT_YEAR - 15
    else CURRENT_YEAR - 10 in
  let min_year := if min_year <? 2000 then 2000 else min_year in
  Ok (min_year, max_year).

Definition _derive_mileage_limit (mileage_tolerance : pyval) : result (Z * Z) :=
  mt ← lower_or_empty mileage_tolerance;
  if String.eqb mt "low" then Ok (0, 120000)
  else if String.eqb mt "high" then Ok (0, 220000)
  else Ok (0, 160000).

Definition _derive_owner_limit (owner_tolerance : pyval) : result Z :=
  ot ← lower_or_empty owner_tolerance;
  if String.eqb ot "low" then Ok 2
  else if String.eqb ot "high" then Ok 4
  else Ok 3.

Definition _derive_engine_category (running_cost_priority : pyval) : result pyval :=
  rcp ← lower_or_empty running_cost_priority;
  if String.eqb rcp "high" then Ok (PInt 2)
  else if String.eqb rcp "low" then Ok PNone
  else Ok (PInt 3).

Definition _derive_body_type_code (body_type_pref family_size : pyval) : result Z :=
  pref ← lower_or_empty body_type_pref;
  if String.eqb pref "small" then Ok 1
  else if String.eqb pref "suv" then Ok 5
  else if (String.eqb pref "mpv_7_seater" || String.eqb pref "mpv"
           || String.eqb pref "7-seater")%bool then Ok 9
  else if String.eqb pref "sedan_or_hatchback" then Ok 4
  else
    match family_size with
    | PNone => Ok 15
    | _ =>
        small ← le_int family_size 2;
        if (small : bool) then Ok 1
        else
          medium ← le_int family_size 4;
          if (medium : bool) then Ok 4 else Ok 9
    end.

Definition profile_to_filters (profile : gmap string pyval) (brand : pyval)
  : result CarFilters :=
  let budget := get profile "budget_sgd" in
  let family_size := get profile "family_size" in
  let age_pref := or_else (get profile "age_preference") (PStr "balanced") in
  let running_cost_priority :=
    or_else (get profile "running_cost_priority") (PStr "medium") in
  let owner_tol := or_else (get profile "owner_tolerance") (PStr "medium") in
  let mileage_tol := or_else (get profile "mileage_tolerance") (PStr "medium") in
  let body_pref := or_else (get profile "body_type_pref") (PStr "sedan_or_hatchback") in
  brand_bias ← lower_or_empty (get profile "brand_bias");
  let brand :=
    if (negb (truthy brand)
        && existsb (fun x => contains x brand_bias) ["toyota"; "honda"; "mazda"])%bool
    then PStr "toyota" else brand in
  prices ← Filters._derive_price_band budget;
  years ← _derive_year_range age_pref;
  mileages ← _derive_mileage_limit mileage_tol;
  max_owners ← _derive_owner_limit owner_tol;
  engine_cat ← _derive_engine_category running_cost_priority;
  body_code ← _derive_body_type_code body_pref family_size;
  cleaned ← clean_or_empty brand;
  Ok (mkCarFilters cleaned (fst prices) (snd prices)
        (PInt (fst years)) (PInt (snd years))
        (PInt (fst mileages)) (PInt (snd mileages))
        (PInt max_owners) engine_cat (PInt body_code) PNone PNone).

End Derivations.

Definition filters_to_dict (filters : CarFilters) : gmap string pyval :=
  <["brand" := PStr (brand filters)]>
  (<["min_price" := min_price filters]>
  (<["max_price" := max_price filters]>
  (<["min_year" := min_year filters]>
  (<["max_year" := max_year filters]>
  (<["min_mileage" := min_mileage filters]>
  (<["max_mileage" := max_mileage filters]>
  (<["max_owners" := max_owners filters]>
  (<["engine_cc_category" := engine_cc_category filters]>
  (<["body_type_code" := body_type_code filters]>
  (<["min_depreciation" := min_depreciation filters]>
  (<["max_depreciation" := max_depreciation filters]> ∅))))))))))).

(** The profiles on which [profile_to_filters] raises nothing: the budget
    is [None], absent or an integer within the range of binary64; the
    family size is [None], absent or an integer; each of the six text
    fields is [None], absent or a string. *)
Definition none_or (P : pyval -> Prop) (v : pyval) : Prop :=
  v = PNone \/ P v.

Definition typed_profile (profile : gmap string pyval) : Prop :=
  none_or Filters.is_budget (get profile "budget_sgd")
  /\ none_or Filters.is_int (get profile "family_size")
  /\ Forall (fun key => none_or Filters.is_string (get profile key))
       ["age_preference"; "running_cost_priority"; "owner_tolerance";
        "mileage_tolerance"; "body_type_pref"; "brand_bias"].

(** A pair of bounds is in order when both are set. *)
Definition in_order (lo hi : pyval) : Prop :=
  forall a b, lo = PInt a -> hi = PInt b -> a <= b.

(** Sample profiles. *)
Definition negative_budget_profile : gmap string pyval :=
  <["budget_sgd" := PInt (-100)]> (<["age_preference" := PStr "Latest_Tech"]> ∅).

Definition honda_profile : gmap string pyval :=
  <["brand_bias" := PStr "I like Honda"]> ∅.

Definition large_family_profile : gmap string pyval :=
  <["family_size" := PInt 7]> (<["body_type_pref" := PStr EmptyString]> ∅).

End ProfileToFilters.

(** ** db_search.py: what a row must meet *)

Module QuerySpec.
Import DbSearch.

(** A row meets a bound held by the filters when its column is not NULL
    and lies on the right side of the bound; a bound that is [None] asks
    nothing. *)
Definition meets_bound (v : pyval) (column : option Z) (ok : Z -> Z -> Prop) : Prop :=
  forall n, v = PInt n -> exists x, column = Some x /\ ok n x.

(** A row meets a non-empty brand when its make is not NULL and its
    lower-cased make matches the pattern made of the lower-cased brand
    between two [%]. *)
Definition meets_brand (v : pyval) (mk : option string) : Prop :=
  forall s, v = PStr s -> s <> EmptyString ->
    exists m, mk = Some m
              /\ like (String "%" (String.append (lower s) "%")) (lower m) = true.

Definition matches (f : gmap string pyval) (r : Row) : Prop :=
  meets_brand (get f "brand") (make r)
  /\ meets_bound (get f "min_price") (price_sgd r) (fun n x => n <= x)
  /\ meets_bound (get f "max_price") (price_sgd r) (fun n x => x <= n)
  /\ meets_bound (get f "min_year") (year r) (fun n x => n <= x)
  /\ meets_bound (get f "max_year") (year r) (fun n x => x <= n)
  /\ meets_bound (get f "min_mileage") (mileage_km r) (fun n x => n <= x)
  /\ meets_bound (get f "max_mileage") (mileage_km r) (fun n x => x <= n).

(** Sample filters whose price band is out of order, and a profile that
    leads the builder to such filters. *)
Definition inverted_filters : gmap string pyval :=
  <["brand" := PStr "BMW"]> (<["min_price" := PInt (-80)]>
  (<["max_price" := PInt (-120)]> ∅)).

Definition negative_profile : gmap string pyval :=
  <["budget_sgd" := PInt (-100)]> (<["brand_bias" := PStr "prefers BMW"]>
  (<["age_preference" := PStr "newest"]> ∅)).

End QuerySpec.

(** ** value_model.py: counting the scores above *)

Module RankSpec.

(** The scores strictly above [x], and the number of distinct ones among
    them: the dense rank of [x] is one more. *)
Definition above (x : Q) (l : list Q) : list Q :=
  filter (fun y => Qle_bool y x = false) l.

Definition higher (x : Q) (present : list Q) : nat :=
  length (ValueModel.distinct (above x present)).

End RankSpec.

(** * Properties *)

(** ** Dictionaries *)

Lemma get_insert_eq (f : gmap string pyval) k v : get (<[k := v]> f) k = v.
Proof. unfold get. rewrite lookup_insert_eq. reflexivity. Qed.

Lemma get_insert_ne (f : gmap string pyval) k k' v :
  k <> k' -> get (<[k := v]> f) k' = get f k'.
Proof. intros H. unfold get. rewrite lookup_insert_ne by exact H. reflexivity. Qed.

Lemma get_empty k : get ∅ k = PNone.
Proof. unfold get. rewrite lookup_empty. reflexivity. Qed.

Ltac get_simpl :=
  repeat first
    [ rewrite get_insert_eq
    | rewrite get_insert_ne by discriminate
    | rewrite get_empty ].

(** ** binary64 rounding in [int(budget * 0.8)] and [int(budget * 1.2)] *)

Module FloatProofs.

Lemma shift_of_nonneg a : 0 <= shift_of a.
Proof. unfold shift_of. lia. Qed.

(** The grid [2^s] on which [a] is rounded: [a] has at most 53 bits
    above it. *)
Lemma shift_of_bounds a :
  0 < a ->
  a < 2 ^ shift_of a * 2 ^ 53
  /\ (0 < shift_of a -> 2 ^ shift_of a * 2 ^ 52 <= a).
Proof.
  intros Ha. unfold shift_of.
  destruct (Z.log2_spec a Ha) as [Hlo Hhi].
  pose proof (Z.log2_nonneg a) as Hn.
  destruct (Z.max_spec 0 (Z.log2 a - 52)) as [[Hlt ->] | [Hge ->]].
  - split.
    + rewrite <- Z.pow_add_r by lia.
      replace (Z.log2 a - 52 + 53) with (Z.succ (Z.log2 a)) by lia. exact Hhi.
    + intros _. rewrite <- Z.pow_add_r by lia.
      replace (Z.log2 a - 52 + 52) with (Z.log2 a) by lia. exact Hlo.
  - split; [| lia].
    change (2 ^ 0) with 1. rewrite Z.mul_1_l.
    apply Z.lt_le_trans with (2 ^ Z.succ (Z.log2 a)); [exact Hhi |].
    apply Z.pow_le_mono_r; lia.
Qed.

(** Rounding a positive integer to nearest: the outcome is within half a
    grid step. *)
Lemma round_even_nearest a e :
  0 < a -> Z.log2 a + e < 1022 ->
  exists q,
    round_even a e = FFin q (shift_of a + e)
    /\ 0 <= q
    /\ 2 * (q * 2 ^ shift_of a) <= 2 * a + 2 ^ shift_of a
    /\ 2 * a <= 2 * (q * 2 ^ shift_of a) + 2 ^ shift_of a.
Proof.
  intros Ha He. unfold round_even.
  rewrite (Z.abs_eq a) by lia.
  pose proof (shift_of_nonneg a) as Hs.
  destruct (shift_of_bounds a Ha) as [Hup Hlow].
  set (s := shift_of a) in *. set (G := 2 ^ s) in *.
  assert (HG : 0 < G) by (apply Z.pow_pos_nonneg; lia).
  pose proof (Z.div_mod a G ltac:(lia)) as Hdm.
  pose proof (Z.mod_pos_bound a G HG) as Hr.
  set (q := a / G) in *. set (r := a mod G) in *.
  assert (Hq : 0 <= q) by (apply Z.div_pos; lia).
  assert (Hq53 : q < 2 ^ 53).
  { apply Z.div_lt_upper_bound; [exact HG | lia]. }
  set (up := ((G <? 2 * r) || ((G =? 2 * r) && Z.odd q))%bool).
  assert (Hsgn : Z.sgn a = 1) by (apply Z.sgn_pos; lia).
  assert (Hq' : 0 <= (if up then q + 1 else q) <= 2 ^ 53)
    by (destruct up; lia).
  assert (Hover : ((0 <? (if up then q + 1 else q))
                   && (1024 <=? Z.log2 (if up then q + 1 else q) + s + e))%bool
                  = false).
  { apply andb_false_iff. right. apply Z.leb_gt.
    destruct (Z.eq_dec s 0) as [Hs0 | Hs0].
    - assert (HG1 : G = 1) by (subst G; rewrite Hs0; reflexivity).
      assert (Hr0 : r = 0) by lia.
      assert (Hupf : up = false).
      { subst up. rewrite HG1, Hr0. reflexivity. }
      rewrite Hupf. replace q with a by nia. lia.
    - assert (Z.log2 (if up then q + 1 else q) <= 53).
      { apply Z.le_trans with (Z.log2 (2 ^ 53)).
        - apply Z.log2_le_mono. lia.
        - rewrite Z.log2_pow2; lia. }
      assert (s = Z.log2 a - 52) by (subst s; unfold shift_of in *; lia).
      lia. }
  rewrite Hover, Hsgn, Z.mul_1_l.
  exists (if up then q + 1 else q).
  split; [reflexivity |]. split; [lia |].
  subst up.
  destruct (Z.ltb_spec G (2 * r)) as [H1 | H1]; simpl orb.
  - split; nia.
  - destruct (Z.eqb_spec G (2 * r)) as [H2 | H2]; simpl andb.
    + destruct (Z.odd q); split; nia.
    + split; nia.
Qed.

Lemma float_of_int_exact b :
  0 <= b < 2 ^ 53 -> float_of_int b = Ok (FFin b 0).
Proof.
  intros Hb. unfold float_of_int, round_even.
  rewrite (Z.abs_eq b) by lia.
  assert (Hs : shift_of b = 0).
  { unfold shift_of. destruct (Z.eq_dec b 0) as [-> | Hne]; [reflexivity |].
    assert (Z.log2 b < 53) by (apply Z.log2_lt_pow2; lia). lia. }
  rewrite Hs. change (2 ^ 0) with 1. rewrite Z.div_1_r, Z.mod_1_r. simpl.
  assert (Hover : ((0 <? b) && (1024 <=? Z.log2 b + 0 + 0))%bool = false).
  { apply andb_false_iff. right. apply Z.leb_gt.
    destruct (Z.eq_dec b 0) as [-> | Hne]; [reflexivity |].
    assert (Z.log2 b < 53) by (apply Z.log2_lt_pow2; lia). lia. }
  rewrite Hover.
  destruct (Z.eq_dec b 0) as [-> | Hne]; [reflexivity |].
  rewrite Z.sgn_pos by lia. rewrite Z.mul_1_l. reflexivity.
Qed.

(** Truncating the rounded product: when [a / 2^E] lies far enough
    inside [k, k+1), more than half a grid step from both ends, rounding
    does not leave that interval. *)
Lemma int_of_rounded a E k :
  0 < a -> 0 <= E -> shift_of a <= E -> Z.log2 a - E < 1022 ->
  2 * (k * 2 ^ E) - 2 ^ shift_of a < 2 * a ->
  2 * a + 2 ^ shift_of a < 2 * ((k + 1) * 2 ^ E) ->
  int_of_float (round_even a (- E)) = Ok k.
Proof.
  intros Ha HE Hs He Hlo Hhi.
  destruct (round_even_nearest a (- E) Ha ltac:(lia)) as (q & -> & Hq & H1 & H2).
  pose proof (shift_of_nonneg a) as Hs0.
  set (s := shift_of a) in *. set (G := 2 ^ s) in *.
  assert (HG : 0 < G) by (apply Z.pow_pos_nonneg; lia).
  set (H := 2 ^ (E - s)).
  assert (HH : 0 < H) by (apply Z.pow_pos_nonneg; lia).
  assert (HD : 2 ^ E = H * G).
  { subst H G. rewrite <- Z.pow_add_r by lia. f_equal. lia. }
  rewrite HD in Hlo, Hhi.
  assert (Hk : k * H <= q < (k + 1) * H) by (split; nia).
  assert (Hdiv : q / H = k).
  { symmetry. apply (Z.div_unique_pos q H k (q - k * H)); lia. }
  unfold int_of_float. f_equal.
  destruct (Z.leb_spec 0 (s + - E)) as [Hge | Hlt].
  - assert (Hz : E - s = 0) by lia.
    subst H. rewrite Hz in *. change (2 ^ 0) with 1 in *.
    replace (s + - E) with 0 by lia. change (2 ^ 0) with 1.
    rewrite Z.div_1_r in Hdiv. lia.
  - replace (- (s + - E)) with (E - s) by lia. fold H.
    rewrite Z.quot_div_nonneg by lia. exact Hdiv.
Qed.

Lemma log2_product_bound b m n :
  0 < b < 2 ^ 49 -> 0 < m < 2 ^ n -> 0 <= n -> Z.log2 (b * m) < 49 + n.
Proof.
  intros Hb Hm Hn. apply Z.log2_lt_pow2; [nia |].
  rewrite Z.pow_add_r by lia. nia.
Qed.

(** [int(b * 0.8)] is the floor of four fifths of [b]. *)
Lemma int_mul_0_8 b :
  0 <= b < 2 ^ 49 -> int_mul_float (PInt b) f0_8 = Ok (4 * b / 5).
Proof.
  intros Hb. unfold int_mul_float, mul_float.
  rewrite float_of_int_exact by lia. cbn [mbind result_bind bind].
  unfold f0_8, fmul. rewrite Z.add_0_l.
  destruct (Z.eq_dec b 0) as [-> | Hne]; [reflexivity |].
  set (m := 7205759403792794). set (a := b * m).
  assert (Ha : 0 < a) by (subst a m; lia).
  assert (Hlog : Z.log2 a < 102).
  { apply (log2_product_bound b m 53); subst m; lia. }
  pose proof (shift_of_nonneg a) as Hs0.
  destruct (shift_of_bounds a Ha) as [Hup Hlow].
  assert (Hs : shift_of a <= 53) by (unfold shift_of; lia).
  pose proof (Z.div_mod (4 * b) 5 ltac:(lia)) as Hdm.
  pose proof (Z.mod_pos_bound (4 * b) 5 ltac:(lia)) as Ht.
  set (k := 4 * b / 5) in *. set (t := (4 * b) mod 5) in *.
  assert (H5a : 5 * a = (5 * k + t) * 2 ^ 53 + 2 * b) by (subst a m; lia).
  assert (HG : 0 < 2 ^ shift_of a) by (apply Z.pow_pos_nonneg; lia).
  apply (int_of_rounded a 53 k); try lia;
    change (2 ^ 53) with 9007199254740992 in *;
    change (2 ^ 52) with 4503599627370496 in *;
    change (2 ^ 49) with 562949953421312 in *.
  all: destruct (Z.eq_dec (shift_of a) 0) as [Hz | Hnz];
    [ rewrite Hz in *; change (2 ^ 0) with 1 in *; lia
    | specialize (Hlow ltac:(lia)); lia ].
Qed.

(** [int(b * 1.2)] is the floor of six fifths of [b]: the literal [1.2]
    lies below six fifths, and the rounding of the product makes up for
    it whenever the exact product is an integer. *)
Lemma int_mul_1_2 b :
  0 <= b < 2 ^ 49 -> int_mul_float (PInt b) f1_2 = Ok (6 * b / 5).
Proof.
  intros Hb. unfold int_mul_float, mul_float.
  rewrite float_of_int_exact by lia. cbn [mbind result_bind bind].
  unfold f1_2, fmul. rewrite Z.add_0_l.
  destruct (Z.eq_dec b 0) as [-> | Hne]; [reflexivity |].
  set (m := 5404319552844595). set (a := b * m).
  assert (Ha : 0 < a) by (subst a m; lia).
  assert (Hlog : Z.log2 a < 102).
  { apply (log2_product_bound b m 53); subst m; lia. }
  pose proof (shift_of_nonneg a) as Hs0.
  destruct (shift_of_bounds a Ha) as [Hup Hlow].
  assert (Hs : shift_of a <= 52) by (unfold shift_of; lia).
  pose proof (Z.div_mod (6 * b) 5 ltac:(lia)) as Hdm.
  pose proof (Z.mod_pos_bound (6 * b) 5 ltac:(lia)) as Ht.
  set (k := 6 * b / 5) in *. set (t := (6 * b) mod 5) in *.
  assert (H5a : 5 * a = (5 * k + t) * 2 ^ 52 - b) by (subst a m; lia).
  assert (HG : 0 < 2 ^ shift_of a) by (apply Z.pow_pos_nonneg; lia).
  apply (int_of_rounded a 52 k); try lia;
    change (2 ^ 53) with 9007199254740992 in *;
    change (2 ^ 52) with 4503599627370496 in *;
    change (2 ^ 49) with 562949953421312 in *.
  all: destruct (Z.eq_dec (shift_of a) 0) as [Hz | Hnz];
    [ rewrite Hz in *; change (2 ^ 0) with 1 in *; lia
    | specialize (Hlow ltac:(lia)); lia ].
Qed.

Lemma round_even_sign n e :
  round_even n e
  = match round_even (Z.abs n) e with
    | FFin q x => FFin (Z.sgn n * q) x
    | FInf _ => FInf (n <? 0)
    | FNaN => FNaN
    end.
Proof.
  unfold round_even. rewrite (Z.abs_eq (Z.abs n)) by lia.
  set (a := Z.abs n).
  match goal with |- (if ?c then _ else _) = _ => destruct c end;
    [reflexivity |].
  f_equal. destruct (Z.eq_dec a 0) as [Ha | Ha].
  - assert (n = 0) by lia. subst n. reflexivity.
  - rewrite (Z.sgn_pos a) by lia. lia.
Qed.

(** Away from the overflow threshold the rounding of any integer is a
    finite float with a mantissa of at most 53 bits. *)
Lemma round_even_finite n e :
  Z.log2 (Z.abs n) + e < 1022 ->
  exists m, round_even n e = FFin m (shift_of (Z.abs n) + e)
            /\ Z.abs m <= 2 ^ 53.
Proof.
  intros He. destruct (Z.eq_dec n 0) as [-> | Hn].
  - exists 0. split; [reflexivity | lia].
  - rewrite round_even_sign.
    assert (Ha : 0 < Z.abs n) by lia.
    destruct (round_even_nearest (Z.abs n) e Ha He) as (q & -> & Hq & H1 & _).
    destruct (shift_of_bounds (Z.abs n) Ha) as [Hup _].
    pose proof (shift_of_nonneg (Z.abs n)) as Hs.
    assert (HG : 0 < 2 ^ shift_of (Z.abs n)) by (apply Z.pow_pos_nonneg; lia).
    exists (Z.sgn n * q). split; [reflexivity |].
    change (2 ^ 53) with 9007199254740992 in *.
    assert (Hq53 : q <= 9007199254740992) by nia.
    destruct (Z.sgn_spec n) as [[_ ->] | [[_ ->] | [_ ->]]]; lia.
Qed.

Lemma log2_abs_lt n k : 0 < k -> Z.abs n < 2 ^ k -> Z.log2 (Z.abs n) < k.
Proof.
  intros Hk Hn. destruct (Z.eq_dec n 0) as [-> | Hne]; [simpl; lia |].
  apply Z.log2_lt_pow2; lia.
Qed.

(** [int(b * c)] raises nothing for an integer [b] well below the range
    of binary64 and a 53-bit constant [c] below four. *)
Lemma int_mul_float_returns b m e :
  Z.abs b < 2 ^ 1000 -> Z.abs m < 2 ^ 53 -> e <= -51 ->
  returns (int_mul_float (PInt b) (FFin m e)).
Proof.
  intros Hb Hm He. unfold int_mul_float, mul_float, float_of_int.
  pose proof (log2_abs_lt b 1000 ltac:(lia) Hb) as Hlb.
  destruct (round_even_finite b 0 ltac:(lia)) as (m1 & -> & Hm1).
  cbn [mbind result_bind bind]. unfold fmul.
  assert (Hs1 : shift_of (Z.abs b) <= 948).
  { unfold shift_of. lia. }
  assert (Hprod : Z.log2 (Z.abs (m1 * m)) < 107).
  { apply log2_abs_lt; [lia |]. rewrite Z.abs_mul.
    change (2 ^ 107) with (2 ^ 53 * 2 ^ 54).
    assert (0 <= Z.abs m1) by lia. assert (0 <= Z.abs m) by lia.
    change (2 ^ 53) with 9007199254740992 in *.
    change (2 ^ 54) with 18014398509481984. nia. }
  destruct (round_even_finite (m1 * m) (shift_of (Z.abs b) + 0 + e) ltac:(lia))
    as (m2 & -> & _).
  eexists. reflexivity.
Qed.

(** Checked against the interpreter: beyond the range where the floor
    identities hold, at the overflow threshold, and for a negative
    budget. *)
Example int_mul_beyond_exact :
  int_mul_float (PInt 2071323478481091) f0_8 = Ok 1657058782784873
  /\ int_mul_float (PInt 2071323478481091) f1_2 = Ok 2485588174177309
  /\ int_mul_float (PInt (-100)) f0_8 = Ok (-80)
  /\ int_mul_float (PInt (-7)) f1_2 = Ok (-8)
  /\ int_mul_float (PInt (10 ^ 400)) f0_8 = Raise OverflowError
  /\ int_mul_float (PInt (16 * 10 ^ 307)) f1_2 = Raise OverflowError.
Proof. repeat split; vm_compute; reflexivity. Qed.

End FloatProofs.

(** ** The filter builder *)

Module FiltersProofs.
Import Filters FloatProofs.

Lemma spec_min_price_floor b : spec_min_price b = 4 * b / 5.
Proof.
  unfold spec_min_price, Qfloor. cbn [inject_Z Qmult Qnum Qden Pos.mul].
  replace (b * 8) with (4 * b * 2) by lia.
  change (Z.pos (1 * 10)) with (5 * 2). apply Z.div_mul_cancel_r; lia.
Qed.

Lemma floor_max_price_floor b : floor_max_price b = 6 * b / 5.
Proof.
  unfold floor_max_price, Qfloor. cbn [inject_Z Qmult Qnum Qden Pos.mul].
  replace (b * 12) with (6 * b * 2) by lia.
  change (Z.pos (1 * 10)) with (5 * 2). apply Z.div_mul_cancel_r; lia.
Qed.

(** What a successful call has computed, field by field. *)
Lemma build_filters_fields profile f :
  build_filters_from_profile profile = Ok f ->
  exists lo hi y m,
    int_mul_float (get_default profile "budget_sgd" (PInt 0)) f0_8 = Ok lo
    /\ int_mul_float (get_default profile "budget_sgd" (PInt 0)) f1_2 = Ok hi
    /\ get f "min_price" = PInt lo /\ get f "max_price" = PInt hi
    /\ get f "min_year" = PInt y /\ get f "max_year" = PInt 2025
    /\ (y = 2020 \/ y = 2012 \/ y = 2015)
    /\ get f "min_mileage" = PInt 0 /\ get f "max_mileage" = PInt m
    /\ (m = 60000 \/ m = 180000 \/ m = 120000).
Proof.
  unfold build_filters_from_profile.
  destruct (int_mul_float _ f0_8) as [lo|]; [| discriminate].
  destruct (int_mul_float _ f1_2) as [hi|]; [| discriminate].
  cbn [mbind result_bind bind].
  destruct (str_lower _) as [lowered|]; [| discriminate].
  cbn [mbind result_bind bind].
  destruct (contains "prefer" lowered); cbn [mbind result_bind bind];
    (destruct (ge_int _ 5) as [large|]; [| discriminate]);
    cbn [mbind result_bind bind]; intros [= <-];
    eexists lo, hi, _, _; get_simpl;
    (repeat split; try reflexivity);
    repeat match goal with
           | |- context [if ?c then _ else _] => destruct c
           end; simpl; tauto.
Qed.

Lemma typed_budget profile :
  absent_or is_budget profile "budget_sgd" ->
  exists b, get_default profile "budget_sgd" (PInt 0) = PInt b /\ Z.abs b < 2 ^ 1000.
Proof.
  unfold absent_or, get_default.
  destruct (profile !! "budget_sgd") as [[|b|]|]; simpl; try tauto.
  - intros H. exists b. split; [reflexivity | exact H].
  - intros _. exists 0. split; [reflexivity |]. apply Z.pow_pos_nonneg; lia.
Qed.

(** On a typed profile the builder raises nothing. *)
Lemma build_filters_returns profile :
  typed_profile profile -> returns (build_filters_from_profile profile).
Proof.
  intros (Hbudget & Hbrand & Hfamily).
  destruct (typed_budget profile Hbudget) as (b & Eb & Hb).
  unfold build_filters_from_profile. rewrite Eb.
  destruct (int_mul_float_returns b 7205759403792794 (-53) Hb) as [lo Elo];
    [change (2 ^ 53) with 9007199254740992; lia | lia |].
  destruct (int_mul_float_returns b 5404319552844595 (-52) Hb) as [hi Ehi];
    [change (2 ^ 53) with 9007199254740992; lia | lia |].
  fold f0_8 in Elo. fold f1_2 in Ehi. rewrite Elo, Ehi.
  cbn [mbind result_bind bind].
  assert (Hs : exists s, get_default profile "brand_bias" (PStr EmptyString) = PStr s).
  { unfold absent_or, get_default in *.
    destruct (profile !! "brand_bias") as [[| |s]|]; simpl in Hbrand;
      try tauto; eexists; reflexivity. }
  destruct Hs as [s ->]. cbn [str_lower mbind result_bind bind].
  assert (Hn : exists n, get_default profile "family_size" (PInt 0) = PInt n).
  { unfold absent_or, get_default in *.
    destruct (profile !! "family_size") as [[|n|]|]; simpl in Hfamily;
      try tauto; eexists; reflexivity. }
  destruct Hn as [n ->].
  destruct (contains "prefer" (lower s)); cbn [ge_int mbind result_bind bind];
    eexists; reflexivity.
Qed.

(** The year and mileage pairs are in order on every profile, and so is
    the price pair for a budget that is absent or not negative. *)
Lemma build_filters_ordered profile f :
  build_filters_from_profile profile = Ok f ->
  ordered f "min_year" "max_year"
  /\ ordered f "min_mileage" "max_mileage"
  /\ (forall b, get_default profile "budget_sgd" (PInt 0) = PInt b ->
      0 <= b < 2 ^ 49 -> ordered f "min_price" "max_price").
Proof.
  intros Hf.
  destruct (build_filters_fields profile f Hf)
    as (lo & hi & y & m & Elo & Ehi & G1 & G2 & G3 & G4 & Hy & G5 & G6 & Hm).
  unfold ordered. rewrite G1, G2, G3, G4, G5, G6.
  split; [| split].
  - intros a b [= <-] [= <-]. lia.
  - intros a b [= <-] [= <-]. lia.
  - intros b Eb Hb a c [= <-] [= <-].
    rewrite Eb in Elo, Ehi.
    rewrite int_mul_0_8 in Elo by exact Hb. rewrite int_mul_1_2 in Ehi by exact Hb.
    injection Elo as <-. injection Ehi as <-.
    apply Z.div_le_mono; lia.
Qed.

(** C4, as the code has it. For a positive budget below [2^49] both
    price-band derivations set [min_price] to the floor of 0.8 times the
    budget and [max_price] to the floor, not the ceiling, of 1.2 times the
    budget; [_derive_price_band] leaves both bounds unset for a budget
    that is [None], zero or negative. *)
Theorem price_band_truncates :
  (forall b profile,
      0 < b < 2 ^ 49 -> typed_profile profile ->
      profile !! "budget_sgd" = Some (PInt b) ->
      _derive_price_band (PInt b)
      = Ok (PInt (spec_min_price b), PInt (floor_max_price b))
      /\ exists f, build_filters_from_profile profile = Ok f
                   /\ get f "min_price" = PInt (spec_min_price b)
                   /\ get f "max_price" = PInt (floor_max_price b))
  /\ (forall b, b <= 0 -> _derive_price_band (PInt b) = Ok (PNone, PNone))
  /\ _derive_price_band PNone = Ok (PNone, PNone).
Proof.
  split; [| split].
  - intros b profile Hb Ht Hp.
    rewrite spec_min_price_floor, floor_max_price_floor. split.
    + unfold _derive_price_band. simpl truthy.
      destruct (Z.eqb_spec b 0); [lia |]. simpl negb. cbv iota.
      cbn [le_int mbind result_bind bind].
      destruct (Z.leb_spec b 0); [lia |].
      rewrite int_mul_0_8, int_mul_1_2 by lia. reflexivity.
    + destruct (build_filters_returns profile Ht) as [f Hf].
      exists f. split; [exact Hf |].
      destruct (build_filters_fields profile f Hf)
        as (lo & hi & y & m & Elo & Ehi & G1 & G2 & _).
      unfold get_default in Elo, Ehi. rewrite Hp in Elo, Ehi.
      rewrite int_mul_0_8 in Elo by lia. rewrite int_mul_1_2 in Ehi by lia.
      injection Elo as <-. injection Ehi as <-. split; assumption.
  - intros b Hb. unfold _derive_price_band. simpl truthy.
    destruct (Z.eqb_spec b 0); [reflexivity |]. simpl negb. cbv iota.
    cbn [le_int mbind result_bind bind].
    destruct (Z.leb_spec b 0); [reflexivity | lia].
  - reflexivity.
Qed.

Lemma price_band_truncates_witness :
  _derive_price_band (PInt 100000)
  = Ok (PInt (spec_min_price 100000), PInt (floor_max_price 100000))
  /\ exists f, build_filters_from_profile demo_profile = Ok f
               /\ get f "min_price" = PInt (spec_min_price 100000)
               /\ get f "max_price" = PInt (floor_max_price 100000).
Proof.
  apply (proj1 price_band_truncates 100000 demo_profile).
  - lia.
  - vm_compute. tauto.
  - reflexivity.
Defined.

(** The builder on a profile that holds a budget and nothing else. *)
Lemma build_filters_budget_only b :
  Z.abs b < 2 ^ 1000 ->
  exists f lo hi,
    build_filters_from_profile (<["budget_sgd" := PInt b]> ∅) = Ok f
    /\ int_mul_float (PInt b) f0_8 = Ok lo
    /\ int_mul_float (PInt b) f1_2 = Ok hi
    /\ get f "min_price" = PInt lo
    /\ get f "max_price" = PInt hi.
Proof.
  intros Hb.
  assert (Ht : typed_profile (<["budget_sgd" := PInt b]> ∅)).
  { unfold typed_profile, absent_or.
    rewrite lookup_insert_eq, !lookup_insert_ne, !lookup_empty by discriminate.
    simpl. tauto. }
  destruct (build_filters_returns _ Ht) as [f Hf].
  destruct (build_filters_fields _ f Hf)
    as (lo & hi & y & m & Elo & Ehi & G1 & G2 & _).
  unfold get_default in Elo, Ehi. rewrite lookup_insert_eq in Elo, Ehi.
  exists f, lo, hi. tauto.
Qed.

(** C4 as stated fails at a budget of 1: the ceiling of 1.2 is 2, and
    both derivations give 1. *)
Lemma price_band_not_ceiling :
  spec_max_price 1 = 2
  /\ _derive_price_band (PInt 1) = Ok (PInt 0, PInt 1)
  /\ exists f, build_filters_from_profile (<["budget_sgd" := PInt 1]> ∅) = Ok f
               /\ get f "max_price" = PInt 1
               /\ get f "max_price" <> PInt (spec_max_price 1).
Proof.
  split; [reflexivity |]. split; [reflexivity |].
  destruct (build_filters_budget_only 1) as (f & lo & hi & Hf & _ & Ehi & _ & G2);
    [vm_compute; reflexivity |].
  rewrite (int_mul_1_2 1) in Ehi by (split; [lia | vm_compute; reflexivity]).
  injection Ehi as <-.
  exists f. split; [exact Hf |]. rewrite G2.
  split; [reflexivity | discriminate].
Qed.

(** C5, at a negative budget: the builder returns a price band whose
    lower bound lies above its upper bound. *)
Theorem negative_budget_inverts_price_band :
  exists f, build_filters_from_profile (<["budget_sgd" := PInt (-100)]> ∅) = Ok f
            /\ get f "min_price" = PInt (-80)
            /\ get f "max_price" = PInt (-120)
            /\ ~ ordered f "min_price" "max_price".
Proof.
  destruct (build_filters_budget_only (-100))
    as (f & lo & hi & Hf & Elo & Ehi & G1 & G2);
    [vm_compute; reflexivity |].
  vm_compute in Elo. vm_compute in Ehi.
  injection Elo as <-. injection Ehi as <-.
  exists f. split; [exact Hf |]. split; [exact G1 |]. split; [exact G2 |].
  intros H. specialize (H (-80) (-120) G1 G2). lia.
Qed.

(** C9, as the code has it. The builder raises nothing on a profile
    whose budget is absent or an integer of magnitude below [2^1000],
    whose [brand_bias] is absent or a string and whose [family_size] is
    absent or an integer, whatever the other fields hold: it returns
    filters whose year and mileage bounds are those of one of the three
    branches, the last of which is the default. *)
Theorem build_filters_total_on_typed profile :
  typed_profile profile ->
  exists f y m,
    build_filters_from_profile profile = Ok f
    /\ get f "min_year" = PInt y /\ get f "max_year" = PInt 2025
    /\ (y = 2020 \/ y = 2012 \/ y = 2015)
    /\ get f "min_mileage" = PInt 0 /\ get f "max_mileage" = PInt m
    /\ (m = 60000 \/ m = 180000 \/ m = 120000).
Proof.
  intros Ht.
  destruct (build_filters_returns profile Ht) as [f Hf].
  destruct (build_filters_fields profile f Hf)
    as (lo & hi & y & m & _ & _ & _ & _ & G3 & G4 & Hy & G5 & G6 & Hm).
  exists f, y, m. repeat split; assumption.
Qed.

Lemma build_filters_total_on_typed_witness :
  exists f,
    build_filters_from_profile
      (<["age_preference" := PInt 7]> (<["fuel_pref" := PNone]> demo_profile))
    = Ok f.
Proof.
  destruct (build_filters_total_on_typed
              (<["age_preference" := PInt 7]> (<["fuel_pref" := PNone]> demo_profile)))
    as (f & _ & _ & Hf & _).
  - vm_compute. tauto.
  - exists f. exact Hf.
Defined.

(** C9 as stated fails: a field may not hold any value. A string or
    [None] budget, a [None] brand bias, a [None] family size and an
    integer too large for binary64 each raise. *)
Lemma build_filters_raises :
  build_filters_from_profile (<["budget_sgd" := PStr "100k"]> ∅) = Raise TypeError
  /\ build_filters_from_profile (<["budget_sgd" := PNone]> ∅) = Raise TypeError
  /\ build_filters_from_profile (<["brand_bias" := PNone]> ∅) = Raise AttributeError
  /\ build_filters_from_profile (<["family_size" := PNone]> ∅) = Raise TypeError
  /\ build_filters_from_profile (<["budget_sgd" := PInt (10 ^ 400)]> ∅)
     = Raise OverflowError.
Proof. repeat split; vm_compute; reflexivity. Qed.

End FiltersProofs.

(** ** The store query and the relaxation ladder *)

Module DbSearchProofs.
Import DbSearch.

Lemma bound_none mk : bound mk PNone = Ok [].
Proof. reflexivity. Qed.

Lemma bound_int mk n : bound mk (PInt n) = Ok [mk n].
Proof. reflexivity. Qed.

Lemma bound_typed mk v : int_or_none v -> returns (bound mk v).
Proof.
  destruct v as [|n|s]; simpl; intros H.
  - exists []. reflexivity.
  - exists [mk n]. reflexivity.
  - destruct H.
Qed.

Lemma brand_typed v :
  str_or_none v ->
  returns (if truthy v
           then b ← str_lower v; Ok [MakeLike (String "%" (String.append b "%"))]
           else Ok [] : result (list clause)).
Proof.
  destruct v as [|n|s]; simpl; intros H.
  - eexists; reflexivity.
  - destruct H.
  - destruct (negb (String.eqb s EmptyString)); eexists; reflexivity.
Qed.

(** Well-typed filters give a statement: building the query raises
    nothing. *)
Lemma build_where_typed f : well_typed f -> returns (build_where (Some f)).
Proof.
  intros (Hb & H1 & H2 & H3 & H4 & H5 & H6).
  unfold build_where. simpl default.
  destruct (brand_typed _ Hb) as [c0 ->].
  destruct (bound_typed PriceGe _ H1) as [c1 E1].
  destruct (bound_typed PriceLe _ H2) as [c2 E2].
  destruct (bound_typed YearGe _ H3) as [c3 E3].
  destruct (bound_typed YearLe _ H4) as [c4 E4].
  destruct (bound_typed MileageGe _ H5) as [c5 E5].
  destruct (bound_typed MileageLe _ H6) as [c6 E6].
  cbn [mbind result_bind bind].
  rewrite E1; cbn [mbind result_bind bind].
  rewrite E2; cbn [mbind result_bind bind].
  rewrite E3; cbn [mbind result_bind bind].
  rewrite E4; cbn [mbind result_bind bind].
  rewrite E5; cbn [mbind result_bind bind].
  rewrite E6; cbn [mbind result_bind bind].
  eexists; reflexivity.
Qed.

Lemma build_where_empty : build_where (Some ∅) = Ok [].
Proof. reflexivity. Qed.

(** The statement depends on the seven fields the function reads and on
    nothing else. *)
Lemma build_where_ext (f g : gmap string pyval) :
  get f "brand" = get g "brand" ->
  get f "min_price" = get g "min_price" ->
  get f "max_price" = get g "max_price" ->
  get f "min_year" = get g "min_year" ->
  get f "max_year" = get g "max_year" ->
  get f "min_mileage" = get g "min_mileage" ->
  get f "max_mileage" = get g "max_mileage" ->
  build_where (Some f) = build_where (Some g).
Proof.
  intros E0 E1 E2 E3 E4 E5 E6. unfold build_where. simpl default.
  rewrite E0, E1, E2, E3, E4, E5, E6. reflexivity.
Qed.

Lemma execute_ok store w limit :
  0 <= limit ->
  execute store (mkStatement w limit)
  = Ok (take (Z.to_nat limit)
          (merge_sort price_le
             (filter (fun r => forallb (fun c => holds c r) w = true) store))).
Proof.
  intros H. unfold execute. simpl.
  destruct (Z.ltb_spec limit 0); [lia | reflexivity].
Qed.

Lemma filter_no_clause (store : list Row) :
  filter (fun r => forallb (fun c => holds c r) [] = true) store = store.
Proof.
  induction store as [|r store IH]; [reflexivity |].
  rewrite filter_cons. simpl. destruct (decide (true = true)); [| congruence].
  f_equal. exact IH.
Qed.

Lemma search_no_filter store limit :
  0 <= limit ->
  search_cars_in_duckdb store (Some ∅) limit
  = Ok (take (Z.to_nat limit) (merge_sort price_le store)).
Proof.
  intros H. unfold search_cars_in_duckdb. rewrite build_where_empty.
  cbn [mbind result_bind bind]. rewrite execute_ok by exact H.
  rewrite filter_no_clause. reflexivity.
Qed.

Lemma take_sorted_nonempty (store : list Row) limit :
  0 < limit -> store <> [] ->
  take (Z.to_nat limit) (merge_sort price_le store) <> [].
Proof.
  intros Hl Hs E.
  assert (Hlen : length (take (Z.to_nat limit) (merge_sort price_le store)) = 0%nat)
    by (rewrite E; reflexivity).
  rewrite length_take in Hlen.
  rewrite (Permutation_length (merge_sort_Permutation price_le store)) in Hlen.
  destruct store; [congruence | simpl in Hlen; lia].
Qed.

Lemma search_typed store f limit :
  0 <= limit -> well_typed f ->
  returns (search_cars_in_duckdb store (Some f) limit).
Proof.
  intros Hl Hf. unfold search_cars_in_duckdb.
  destruct (build_where_typed f Hf) as [w ->]. cbn [mbind result_bind bind].
  rewrite execute_ok by exact Hl. eexists; reflexivity.
Qed.

Lemma relaxed_typed filters :
  well_typed (default ∅ filters) -> well_typed (relaxed_of filters).
Proof.
  intros (Hb & H1 & H2 & _). unfold well_typed, relaxed_of.
  get_simpl. simpl. tauto.
Qed.

Lemma super_relaxed_typed f : well_typed f -> well_typed (super_relaxed_of f).
Proof.
  intros (Hb & H1 & H2 & _). unfold well_typed, super_relaxed_of.
  get_simpl. simpl. tauto.
Qed.

Lemma empty_false (df : list Row) : empty df = false -> df <> [].
Proof. destruct df; [discriminate | congruence]. Qed.

(** C1. Over a store that holds at least one listing, for well-typed
    filters ([None] included) and a positive limit, [search_with_fallback]
    returns, and what it returns is not empty: a stage that yields rows is
    returned as it is, and the fourth stage, with no filter, yields the
    first [limit] rows of the whole store. *)
Theorem search_with_fallback_nonempty store filters limit :
  0 < limit -> store <> [] -> well_typed (default ∅ filters) ->
  exists df, search_with_fallback store filters limit = Ok df /\ df <> [].
Proof.
  intros Hl Hs Hf.
  assert (H1 : returns (search_cars_in_duckdb store filters limit)).
  { destruct filters as [f|]; [apply search_typed; [lia | exact Hf] |].
    unfold search_cars_in_duckdb.
    change (build_where None) with (Ok [] : result (list clause)).
    cbn [mbind result_bind bind].
    rewrite execute_ok by lia. eexists; reflexivity. }
  unfold search_with_fallback.
  destruct H1 as [df1 ->]. cbn [mbind result_bind bind].
  destruct (empty df1) eqn:E1; simpl;
    [| exists df1; split; [reflexivity | apply empty_false, E1]].
  pose proof (relaxed_typed filters Hf) as Hr.
  destruct (search_typed store _ limit ltac:(lia) Hr) as [df2 ->].
  cbn [mbind result_bind bind].
  destruct (empty df2) eqn:E2; simpl;
    [| exists df2; split; [reflexivity | apply empty_false, E2]].
  destruct (search_typed store _ limit ltac:(lia) (super_relaxed_typed _ Hr))
    as [df3 ->].
  cbn [mbind result_bind bind].
  destruct (empty df3) eqn:E3; simpl;
    [| exists df3; split; [reflexivity | apply empty_false, E3]].
  rewrite search_no_filter by lia.
  eexists; split; [reflexivity | apply take_sorted_nonempty; assumption].
Qed.

Lemma search_with_fallback_nonempty_witness :
  exists df, search_with_fallback demo_store (Some demo_filters) 2 = Ok df /\ df <> [].
Proof.
  apply (search_with_fallback_nonempty demo_store (Some demo_filters) 2).
  - lia.
  - discriminate.
  - vm_compute. tauto.
Defined.

(** Filter sets that agree on the keys read get the same statement at
    each of the three filtered stages. *)
Lemma agree_stage1 (f g : gmap string pyval) :
  (forall k, In k keys_read -> get f k = get g k) ->
  build_where (Some f) = build_where (Some g).
Proof.
  intros H. apply build_where_ext; apply H; simpl; tauto.
Qed.

Lemma agree_stage2 (f g : gmap string pyval) :
  (forall k, In k keys_read -> get f k = get g k) ->
  build_where (Some (relaxed_of (Some f))) = build_where (Some (relaxed_of (Some g))).
Proof.
  intros H. apply build_where_ext; unfold relaxed_of; simpl default; get_simpl;
    try reflexivity; apply H; simpl; tauto.
Qed.

Lemma agree_stage3 (f g : gmap string pyval) :
  (forall k, In k keys_read -> get f k = get g k) ->
  build_where (Some (super_relaxed_of (relaxed_of (Some f))))
  = build_where (Some (super_relaxed_of (relaxed_of (Some g)))).
Proof.
  intros H. apply build_where_ext; unfold super_relaxed_of, relaxed_of;
    simpl default; get_simpl; try reflexivity; apply H; simpl; tauto.
Qed.

Lemma agree_fallback store (f g : gmap string pyval) limit :
  (forall k, In k keys_read -> get f k = get g k) ->
  search_with_fallback store (Some f) limit = search_with_fallback store (Some g) limit.
Proof.
  intros H. unfold search_with_fallback, search_cars_in_duckdb.
  rewrite (agree_stage1 f g H), (agree_stage2 f g H), (agree_stage3 f g H).
  reflexivity.
Qed.

(** C7, as the code has it. [search_with_fallback] is the four-stage
    ladder: it answers with the first non-empty stage among the filters
    as given, the filters with the year and mileage bounds set to [None],
    the filters reduced to brand and price bounds, and the empty filter
    set. The second stage leaves every other entry in the dictionary it
    hands over, but the query reads brand, price, year and mileage only:
    the second stage sends the statement built from brand and price
    alone, the one the third stage sends, and filter sets that agree on
    the seven keys read get the same answer. Owners, body type, engine
    category and depreciation constrain no stage. *)
Theorem search_with_fallback_ladder store filters limit :
  search_with_fallback store filters limit
  = first_nonempty
      [ search_cars_in_duckdb store filters limit;
        search_cars_in_duckdb store (Some (relaxed_of filters)) limit;
        search_cars_in_duckdb store
          (Some (super_relaxed_of (relaxed_of filters))) limit ]
      (search_cars_in_duckdb store (Some ∅) limit)
  /\ (forall k, In k ["min_year"; "max_year"; "min_mileage"; "max_mileage"] ->
       get (relaxed_of filters) k = PNone)
  /\ (forall k, ~ In k ["min_year"; "max_year"; "min_mileage"; "max_mileage"] ->
       relaxed_of filters !! k = default ∅ filters !! k)
  /\ (forall k, In k ["brand"; "min_price"; "max_price"] ->
       get (super_relaxed_of (relaxed_of filters)) k = get (default ∅ filters) k)
  /\ (forall k, ~ In k ["brand"; "min_price"; "max_price"] ->
       super_relaxed_of (relaxed_of filters) !! k = None)
  /\ build_where (Some (relaxed_of filters))
     = build_where (Some (super_relaxed_of (relaxed_of filters)))
  /\ (forall f g : gmap string pyval,
        (forall k, In k keys_read -> get f k = get g k) ->
        build_where (Some f) = build_where (Some g)
        /\ build_where (Some (relaxed_of (Some f)))
           = build_where (Some (relaxed_of (Some g)))
        /\ search_with_fallback store (Some f) limit
           = search_with_fallback store (Some g) limit).
Proof.
  split; [| split; [| split; [| split; [| split; [| split]]]]].
  - unfold search_with_fallback, first_nonempty.
    destruct (search_cars_in_duckdb store filters limit) as [df1|e]; [| reflexivity].
    cbn [mbind result_bind bind]. destruct (empty df1); [| reflexivity]. simpl negb. cbv iota.
    destruct (search_cars_in_duckdb store (Some (relaxed_of filters)) limit)
      as [df2|e]; [| reflexivity].
    cbn [mbind result_bind bind]. destruct (empty df2); [| reflexivity]. simpl negb. cbv iota.
    destruct (search_cars_in_duckdb store
                (Some (super_relaxed_of (relaxed_of filters))) limit)
      as [df3|e]; [| reflexivity].
    cbn [mbind result_bind bind]. destruct (empty df3); reflexivity.
  - intros k Hk. unfold relaxed_of. simpl in Hk.
    destruct Hk as [<- | [<- | [<- | [<- | []]]]]; get_simpl; reflexivity.
  - intros k Hk. unfold relaxed_of. simpl in Hk.
    rewrite !lookup_insert_ne by (intros <-; apply Hk; tauto). reflexivity.
  - intros k Hk. unfold super_relaxed_of, relaxed_of. simpl in Hk.
    destruct Hk as [<- | [<- | [<- | []]]]; get_simpl; reflexivity.
  - intros k Hk. unfold super_relaxed_of. simpl in Hk.
    rewrite !lookup_insert_ne by (intros <-; apply Hk; tauto).
    apply lookup_empty.
  - apply build_where_ext; unfold super_relaxed_of, relaxed_of; get_simpl; reflexivity.
  - intros f g H. split; [exact (agree_stage1 f g H) |].
    split; [exact (agree_stage2 f g H) | exact (agree_fallback store f g limit H)].
Qed.

Lemma search_with_fallback_ladder_witness :
  search_with_fallback demo_store (Some owner_filters) 5
  = search_with_fallback demo_store (Some (delete "max_owners" owner_filters)) 5.
Proof.
  apply (search_with_fallback_ladder demo_store None 5).
  intros k Hk. simpl in Hk.
  destruct Hk as [<- | [<- | [<- | [<- | [<- | [<- | [<- | []]]]]]]];
    vm_compute; reflexivity.
Defined.

(** C7 as stated fails: the second stage keeps [max_owners],
    [engine_cc_category], [body_type_code] and [max_depreciation] in the
    dictionary, and sends a statement with the brand and price clauses
    only; it returns what the filters without these entries return. *)
Lemma stage2_constrains_brand_and_price_only :
  get (relaxed_of (Some owner_filters)) "max_owners" = PInt 1
  /\ get (relaxed_of (Some owner_filters)) "engine_cc_category" = PInt 0
  /\ get (relaxed_of (Some owner_filters)) "body_type_code" = PInt 4
  /\ get (relaxed_of (Some owner_filters)) "max_depreciation" = PInt 15000
  /\ search_cars_in_duckdb demo_store (Some owner_filters) 5 = Ok []
  /\ build_where (Some (relaxed_of (Some owner_filters)))
     = Ok [MakeLike "%toyota%"; PriceGe 80000]
  /\ search_cars_in_duckdb demo_store (Some (relaxed_of (Some owner_filters))) 5
     = search_cars_in_duckdb demo_store (Some brand_price_filters) 5
  /\ search_with_fallback demo_store (Some owner_filters) 5
     = Ok [ mkRow (Some "Toyota") (Some 85000) (Some 2016) (Some 90000) "listing/3";
            mkRow (Some "Toyota") (Some 95000) (Some 2018) None "listing/2" ].
Proof. repeat split; vm_compute; reflexivity. Qed.

Lemma build_where_stage2_stage3 filters :
  build_where (Some (relaxed_of filters))
  = build_where (Some (super_relaxed_of (relaxed_of filters))).
Proof.
  apply build_where_ext; unfold super_relaxed_of, relaxed_of; get_simpl; reflexivity.
Qed.

Lemma build_where_unread (f : gmap string pyval) (v1 v2 v3 v4 v5 : pyval) :
  build_where
    (Some (<["max_owners" := v1]> (<["engine_cc_category" := v2]>
          (<["body_type_code" := v3]> (<["min_depreciation" := v4]>
          (<["max_depreciation" := v5]> f))))))
  = build_where (Some f).
Proof. apply build_where_ext; get_simpl; reflexivity. Qed.

(** C10. The query reads [brand] and the price, year and mileage bounds
    only: whatever [max_owners], [engine_cc_category], [body_type_code],
    [min_depreciation] and [max_depreciation] hold, the statement sent
    and the rows returned are the same. Hence the second and the third
    stage of the ladder send the same statement and return the same
    rows, and the third stage is empty whenever the second is. *)
Theorem stage3_repeats_stage2 store filters limit :
  (forall (f : gmap string pyval) v1 v2 v3 v4 v5,
      search_cars_in_duckdb store
        (Some (<["max_owners" := v1]> (<["engine_cc_category" := v2]>
              (<["body_type_code" := v3]> (<["min_depreciation" := v4]>
              (<["max_depreciation" := v5]> f)))))) limit
      = search_cars_in_duckdb store (Some f) limit)
  /\ build_where (Some (relaxed_of filters))
     = build_where (Some (super_relaxed_of (relaxed_of filters)))
  /\ search_cars_in_duckdb store (Some (relaxed_of filters)) limit
     = search_cars_in_duckdb store
         (Some (super_relaxed_of (relaxed_of filters))) limit
  /\ (forall df, search_cars_in_duckdb store (Some (relaxed_of filters)) limit = Ok df ->
       empty df = true ->
       exists df', search_cars_in_duckdb store
                     (Some (super_relaxed_of (relaxed_of filters))) limit = Ok df'
                   /\ empty df' = true).
Proof.
  assert (E : search_cars_in_duckdb store (Some (relaxed_of filters)) limit
              = search_cars_in_duckdb store
                  (Some (super_relaxed_of (relaxed_of filters))) limit).
  { unfold search_cars_in_duckdb. rewrite <- build_where_stage2_stage3. reflexivity. }
  split; [| split; [| split]].
  - intros f v1 v2 v3 v4 v5. unfold search_cars_in_duckdb.
    rewrite build_where_unread. reflexivity.
  - apply build_where_stage2_stage3.
  - exact E.
  - intros df Hdf Hempty. exists df. rewrite <- E. split; assumption.
Qed.

(** *** What a query returns *)

Lemma like_percent_unfold p s :
  like (String "%" p) s
  = (like p s
     || match s with
        | EmptyString => false
        | String _ s' => like (String "%" p) s'
        end).
Proof. destruct s; reflexivity. Qed.

Lemma like_any s : like "%" s = true.
Proof.
  induction s as [|c s IH]; [reflexivity |].
  rewrite like_percent_unfold. rewrite IH. apply orb_true_r.
Qed.

Lemma prefix_cons c d (b t : string) :
  String.prefix (String c b) (String d t) = (Ascii.eqb c d && String.prefix b t).
Proof.
  simpl. destruct (ascii_dec c d) as [->|Hne].
  - rewrite Ascii.eqb_refl. reflexivity.
  - destruct (Ascii.eqb_spec c d); [contradiction | reflexivity].
Qed.

Lemma like_literal_prefix b t :
  wildcard_free b = true -> like (String.append b "%") t = String.prefix b t.
Proof.
  revert t. induction b as [|c b IH]; intros t Hb.
  - simpl String.append. rewrite like_any. destruct t; reflexivity.
  - simpl in Hb. apply andb_prop in Hb as [Hc Hb]. apply andb_prop in Hc as [Hp Hu].
    apply negb_true_iff in Hp, Hu.
    change (String.append (String c b) "%") with (String c (String.append b "%")).
    destruct t as [|d t].
    + cbn [like]. rewrite Hp. reflexivity.
    + cbn [like]. rewrite Hp, Hu, prefix_cons, IH by exact Hb. reflexivity.
Qed.

(** For a brand without wildcards the [LIKE] clause is the substring
    test. *)
Lemma like_substring b s :
  wildcard_free b = true ->
  like (String "%" (String.append b "%")) s = contains b s.
Proof.
  intros Hb. induction s as [|c s IH].
  - rewrite like_percent_unfold, like_literal_prefix by exact Hb.
    simpl. destruct (String.prefix b EmptyString); reflexivity.
  - rewrite like_percent_unfold, like_literal_prefix, IH by exact Hb.
    cbn [contains]. destruct (String.prefix b (String c s)); reflexivity.
Qed.

Lemma price_le_total : Total price_le.
Proof.
  intros r1 r2. unfold price_le.
  destruct (price_sgd r1), (price_sgd r2); try tauto. lia.
Qed.

Lemma price_le_trans : Transitive price_le.
Proof.
  intros r1 r2 r3. unfold price_le.
  destruct (price_sgd r1), (price_sgd r2), (price_sgd r3); try tauto. lia.
Qed.

Lemma Sorted_take {A : Type} (R : relation A) n (l : list A) :
  Sorted R l -> Sorted R (take n l).
Proof.
  intros H. revert n. induction H as [|x l Hl IH Hx]; intros [|n]; simpl;
    try constructor.
  - apply IH.
  - destruct Hx as [|y l' Hy]; destruct n; simpl; constructor. exact Hy.
Qed.

(** A query with a non-negative limit and clauses [w] returns the first
    [limit] matching rows in price order: the answer is sorted by price,
    holds no more than [limit] rows, each one a row of the store that
    meets every clause, and it is empty when no row matches. *)
Lemma execute_spec store w limit :
  0 <= limit ->
  exists df,
    execute store (mkStatement w limit) = Ok df
    /\ Sorted price_le df
    /\ (length df <= Z.to_nat limit)%nat
    /\ (forall r, In r df -> In r store /\ forall c, In c w -> holds c r = true)
    /\ ((forall r, In r store -> forallb (fun c => holds c r) w = false) -> df = []).
Proof.
  intros Hl. rewrite execute_ok by exact Hl. eexists; split; [reflexivity |].
  pose proof price_le_total. 
  split; [| split; [| split]].
  - apply Sorted_take. apply (Sorted_merge_sort price_le).
  - rewrite length_take. lia.
  - intros r Hr. apply list_elem_of_In in Hr.
    apply elem_of_take in Hr as (i & Hr & _).
    apply list_elem_of_lookup_2 in Hr.
    rewrite (merge_sort_Permutation price_le) in Hr.
    apply list_elem_of_filter in Hr as [Hm Hin].
    split; [apply list_elem_of_In, Hin |].
    intros c Hc. rewrite forallb_forall in Hm. apply Hm, Hc.
  - intros Hnone.
    assert (E : filter (fun r => forallb (fun c => holds c r) w = true) store = []).
    { clear Hl. induction store as [|r store IH]; [reflexivity |].
      rewrite filter_cons. rewrite (Hnone r) by (left; reflexivity).
      destruct (decide (false = true)); [discriminate |].
      apply IH. intros r' Hr'. apply Hnone. right. exact Hr'. }
    rewrite E. change (merge_sort price_le []) with (@nil Row). apply take_nil.
Qed.

(** With no filter the answer is the cheapest [limit] rows of the whole
    store: the store sorted by price, cut at [limit]. *)
Lemma search_no_filter_cheapest store limit :
  0 <= limit ->
  exists df rest,
    search_cars_in_duckdb store (Some ∅) limit = Ok df
    /\ length df = Nat.min (Z.to_nat limit) (length store)
    /\ Sorted price_le (df ++ rest)
    /\ df ++ rest ≡ₚ store.
Proof.
  intros Hl. rewrite search_no_filter by exact Hl.
  exists (take (Z.to_nat limit) (merge_sort price_le store)),
         (drop (Z.to_nat limit) (merge_sort price_le store)).
  split; [reflexivity |]. rewrite take_drop, length_take.
  rewrite (Permutation_length (merge_sort_Permutation price_le store)).
  pose proof price_le_total.
  split; [reflexivity |]. split.
  - apply (Sorted_merge_sort price_le).
  - apply merge_sort_Permutation.
Qed.

(** C6, at a brand that holds a wildcard: the brand ["_"] is no substring
    of ["bmw"], and yet the query for it returns the BMW listing. *)
Theorem search_brand_wildcard :
  contains "_" (lower "BMW") = false
  /\ search_cars_in_duckdb wildcard_store (Some (<["brand" := PStr "_"]> ∅)) 10
     = Ok wildcard_store.
Proof. split; reflexivity. Qed.

End DbSearchProofs.

(** ** The value score *)

Module ValueModelProofs.
Import ValueModel.
Local Open Scope Q_scope.

Lemma feq_refl a : feq a a.
Proof. destruct a; simpl; [reflexivity | exact I]. Qed.

Lemma feq_sym a b : feq a b -> feq b a.
Proof. destruct a, b; simpl; try tauto. intros H. symmetry. exact H. Qed.

(** *** Minimum and maximum of a column *)

Lemma pick_in better x acc y :
  pick better x acc = Some y -> x = Some y \/ acc = Some y.
Proof.
  destruct x as [a|], acc as [b|]; simpl; intros H; auto; try discriminate.
  destruct (better a b); auto.
Qed.

Lemma fold_pick_none better s y :
  foldr (pick better) None s = None -> ~ In (Some y) s.
Proof.
  induction s as [|z s IH]; intros Es Hy; [destruct Hy |].
  change (pick better z (foldr (pick better) None s) = None) in Es.
  destruct z as [a|]; simpl in Es.
  - destruct (foldr (pick better) None s); discriminate Es.
  - destruct Hy as [[=] | Hy]. exact (IH Es Hy).
Qed.

Lemma series_min_in s lo : series_min s = Some lo -> In (Some lo) s.
Proof.
  revert lo. induction s as [|x s IH]; intros lo H; [discriminate H |].
  change (pick (fun a b => Qle_bool a b) x (series_min s) = Some lo) in H.
  apply pick_in in H as [-> | H]; [left; reflexivity | right; auto].
Qed.

Lemma series_max_in s hi : series_max s = Some hi -> In (Some hi) s.
Proof.
  revert hi. induction s as [|x s IH]; intros hi H; [discriminate H |].
  change (pick (fun a b => Qle_bool b a) x (series_max s) = Some hi) in H.
  apply pick_in in H as [-> | H]; [left; reflexivity | right; auto].
Qed.

Lemma series_min_le s lo y : series_min s = Some lo -> In (Some y) s -> lo <= y.
Proof.
  revert lo. induction s as [|x s IH]; intros lo Hm Hy; [destruct Hy |].
  change (pick (fun a b => Qle_bool a b) x (series_min s) = Some lo) in Hm.
  destruct x as [a|]; destruct (series_min s) as [b|] eqn:Es; simpl in Hm.
  - injection Hm as <-.
    destruct (Qle_bool a b) eqn:Hab.
    + apply Qle_bool_iff in Hab. destruct Hy as [[= ->] | Hy]; [lra |].
      specialize (IH b eq_refl Hy). lra.
    + assert (b < a).
      { apply Qnot_le_lt. intros Hle. apply Qle_bool_iff in Hle. congruence. }
      destruct Hy as [[= ->] | Hy]; [lra |]. apply (IH b eq_refl Hy).
  - injection Hm as <-. destruct Hy as [[= ->] | Hy]; [lra |].
    exfalso. exact (fold_pick_none _ _ y Es Hy).
  - destruct Hy as [[=] | Hy]. apply IH; assumption.
  - discriminate Hm.
Qed.

Lemma series_max_ge s hi y : series_max s = Some hi -> In (Some y) s -> y <= hi.
Proof.
  revert hi. induction s as [|x s IH]; intros hi Hm Hy; [destruct Hy |].
  change (pick (fun a b => Qle_bool b a) x (series_max s) = Some hi) in Hm.
  destruct x as [a|]; destruct (series_max s) as [b|] eqn:Es; simpl in Hm.
  - injection Hm as <-.
    destruct (Qle_bool b a) eqn:Hab.
    + apply Qle_bool_iff in Hab. destruct Hy as [[= ->] | Hy]; [lra |].
      specialize (IH b eq_refl Hy). lra.
    + assert (a < b).
      { apply Qnot_le_lt. intros Hle. apply Qle_bool_iff in Hle. congruence. }
      destruct Hy as [[= ->] | Hy]; [lra |]. apply (IH b eq_refl Hy).
  - injection Hm as <-. destruct Hy as [[= ->] | Hy]; [lra |].
    exfalso. exact (fold_pick_none _ _ y Es Hy).
  - destruct Hy as [[=] | Hy]. apply IH; assumption.
  - discriminate Hm.
Qed.

Lemma all_nan_no_value s x : forallb isna s = true -> ~ In (Some x) s.
Proof.
  intros H Hin. rewrite forallb_forall in H. specialize (H _ Hin). discriminate H.
Qed.

Lemma some_value s : forallb isna s = false -> exists x, In (Some x) s.
Proof.
  induction s as [|[a|] s IH]; simpl; intros H; [discriminate H | |].
  - exists a. left. reflexivity.
  - destruct (IH H) as [x Hx]. exists x. right. exact Hx.
Qed.

Lemma series_min_some s x : In (Some x) s -> exists lo, series_min s = Some lo.
Proof.
  induction s as [|z s IH]; intros Hin; [destruct Hin |].
  change (exists lo, pick (fun a b => Qle_bool a b) z (series_min s) = Some lo).
  destruct Hin as [-> | Hin].
  - simpl. destruct (series_min s); eexists; reflexivity.
  - destruct (IH Hin) as [lo ->]. destruct z; simpl; eexists; reflexivity.
Qed.

Lemma series_max_some s x : In (Some x) s -> exists hi, series_max s = Some hi.
Proof.
  induction s as [|z s IH]; intros Hin; [destruct Hin |].
  change (exists hi, pick (fun a b => Qle_bool b a) z (series_max s) = Some hi).
  destruct Hin as [-> | Hin].
  - simpl. destruct (series_max s); eexists; reflexivity.
  - destruct (IH Hin) as [hi ->]. destruct z; simpl; eexists; reflexivity.
Qed.

(** The three cases of a column: nothing known; all known values equal;
    a minimum strictly below a maximum. *)
Lemma column_cases col :
  (forallb isna (map known col) = true /\ degenerate col)
  \/ (exists lo hi,
        forallb isna (map known col) = false
        /\ series_min (map known col) = Some lo
        /\ series_max (map known col) = Some hi
        /\ is_min col lo /\ is_max col hi
        /\ ((Qeq_bool hi lo = true /\ degenerate col)
            \/ (Qeq_bool hi lo = false /\ lo < hi /\ ~ degenerate col))).
Proof.
  destruct (forallb isna (map known col)) eqn:Hall.
  - left. split; [reflexivity |].
    intros x y Hx _. exfalso. exact (all_nan_no_value _ x Hall Hx).
  - right. destruct (some_value _ Hall) as [x Hx].
    destruct (series_min_some _ x Hx) as [lo Hlo].
    destruct (series_max_some _ x Hx) as [hi Hhi].
    exists lo, hi. split; [reflexivity |]. split; [exact Hlo |]. split; [exact Hhi |].
    assert (Hmin : is_min col lo).
    { split; [apply series_min_in, Hlo | intros y Hy; apply (series_min_le _ _ _ Hlo Hy)]. }
    assert (Hmax : is_max col hi).
    { split; [apply series_max_in, Hhi | intros y Hy; apply (series_max_ge _ _ _ Hhi Hy)]. }
    split; [exact Hmin |]. split; [exact Hmax |].
    destruct (Qeq_bool hi lo) eqn:E.
    + left. split; [reflexivity |]. apply Qeq_bool_iff in E.
      intros a b Ha Hb.
      pose proof (proj2 Hmin a Ha). pose proof (proj2 Hmax a Ha).
      pose proof (proj2 Hmin b Hb). pose proof (proj2 Hmax b Hb). lra.
    + right. split; [reflexivity |].
      assert (Hne : ~ hi == lo).
      { intros Heq. apply Qeq_bool_iff in Heq. congruence. }
      pose proof (proj2 Hmin hi (proj1 Hmax)) as Hle.
      split; [lra |].
      intros Hdeg. apply Hne. apply Hdeg; [exact (proj1 Hmax) | exact (proj1 Hmin)].
Qed.

(** *** [_normalize], row by row *)

Lemma lookup_map {A B : Type} (f : A -> B) (l : list A) (i : nat) :
  map f l !! i = f <$> (l !! i).
Proof.
  revert i. induction l as [|x l IH]; intros [|i]; simpl; try reflexivity.
  apply IH.
Qed.

Lemma at_label_replicate {A : Type} (n i : nat) (x : option A) :
  (i < n)%nat -> at_label (replicate n x) i = x.
Proof.
  intros H. unfold at_label. rewrite lookup_replicate_2 by exact H. reflexivity.
Qed.

Lemma normalize_at col reverse i v :
  col !! i = Some v -> at_label (_normalize col reverse) i = norm_at col reverse v.
Proof.
  intros Hv. pose proof (lookup_lt_Some _ _ _ Hv) as Hi.
  assert (Hlen : (i < length (map known col))%nat) by (rewrite length_map; exact Hi).
  unfold _normalize, norm_at.
  destruct (forallb isna (map known col)); [apply at_label_replicate, Hlen |].
  destruct (series_min (map known col)) as [lo|]; [| apply at_label_replicate, Hlen].
  destruct (series_max (map known col)) as [hi|]; [| apply at_label_replicate, Hlen].
  destruct (Qeq_bool hi lo); [apply at_label_replicate, Hlen |].
  unfold at_label. rewrite lookup_map, lookup_map, Hv. reflexivity.
Qed.

(** The entry is the normalisation the specification words: the batch
    minimum and maximum, 0.5 on a degenerate column, inverted for the
    attributes where lower is better. *)
Lemma norm_at_spec col reverse v :
  exists n, norm_of col v n
            /\ feq (norm_at col reverse v) (if reverse then inverted n else n).
Proof.
  unfold norm_at.
  destruct (column_cases col)
    as [[-> Hdeg] | (lo & hi & -> & -> & -> & Hmin & Hmax
                     & [[-> Hdeg] | (-> & Hlt & Hnd)])].
  - exists (Some half). split; [apply norm_neutral, Hdeg |].
    destruct reverse; simpl; reflexivity.
  - exists (Some half). split; [apply norm_neutral, Hdeg |].
    destruct reverse; simpl; reflexivity.
  - destruct v as [| neg | x]; simpl known; cbv iota.
    + exists None. split; [apply norm_unknown; [exact Hnd | reflexivity] |].
      destruct reverse; exact I.
    + exists None. split; [apply norm_unknown; [exact Hnd | reflexivity] |].
      destruct reverse; exact I.
    + exists (Some ((x - lo) / (hi - lo))).
      split; [apply norm_minmax; assumption |].
      destruct reverse; simpl; reflexivity.
Qed.

Lemma norm_at_scorable col reverse v :
  is_Some (norm_at col reverse v) <-> scorable col v.
Proof.
  unfold norm_at, scorable.
  destruct (column_cases col)
    as [[-> Hdeg] | (lo & hi & -> & -> & -> & Hmin & Hmax
                     & [[-> Hdeg] | (-> & Hlt & Hnd)])].
  - split; [intros _; right; exact Hdeg | intros _; eexists; reflexivity].
  - split; [intros _; right; exact Hdeg | intros _; eexists; reflexivity].
  - destruct (known v) as [x|].
    + split; [intros _; left; discriminate | intros _; eexists; reflexivity].
    + split; [intros [y Hy]; discriminate Hy | intros [H | H]; [congruence | contradiction]].
Qed.

Lemma norm_at_degenerate col reverse v :
  degenerate col -> norm_at col reverse v = Some half.
Proof.
  intros Hdeg. unfold norm_at.
  destruct (column_cases col)
    as [[-> _] | (lo & hi & -> & -> & -> & Hmin & Hmax
                  & [[-> _] | (-> & Hlt & Hnd)])];
    [reflexivity | reflexivity | contradiction].
Qed.

(** The same attribute value gets the same entry. *)
Lemma norm_at_same col reverse v1 v2 :
  feq (known v1) (known v2) ->
  feq (norm_at col reverse v1) (norm_at col reverse v2).
Proof.
  intros Hsame. unfold norm_at.
  destruct (forallb isna (map known col)); [reflexivity |].
  destruct (series_min (map known col)) as [lo|]; [| reflexivity].
  destruct (series_max (map known col)) as [hi|]; [| reflexivity].
  destruct (Qeq_bool hi lo); [reflexivity |].
  destruct (known v1) as [x1|], (known v2) as [x2|]; simpl in Hsame;
    try contradiction; [| exact I].
  destruct reverse; simpl; rewrite Hsame; reflexivity.
Qed.

(** A lower known price gets an inverted entry at least as high. *)
Lemma norm_at_price_monotone col v1 v2 p1 p2 :
  known v1 = Some p1 -> known v2 = Some p2 -> p1 < p2 ->
  exists a1 a2, norm_at col true v1 = Some a1
                /\ norm_at col true v2 = Some a2 /\ a2 <= a1.
Proof.
  intros H1 H2 Hlt. unfold norm_at. rewrite H1, H2.
  destruct (column_cases col)
    as [[-> _] | (lo & hi & -> & -> & -> & Hmin & Hmax
                  & [[-> _] | (-> & Hlohi & Hnd)])].
  - exists half, half. repeat split; lra.
  - exists half, half. repeat split; lra.
  - eexists _, _. split; [reflexivity |]. split; [reflexivity |].
    assert (Hinv : 0 <= / (hi - lo)) by (apply Qinv_le_0_compat; lra).
    assert (Hmul : (p1 - lo) * / (hi - lo) <= (p2 - lo) * / (hi - lo))
      by (apply Qmult_le_compat_r; lra).
    unfold Qdiv. lra.
Qed.

(** *** The scored frame, row by row *)

Lemma column_lookup field (df : list Listing) i l :
  df !! i = Some l -> column field df !! i = Some (to_numeric (field l)).
Proof. intros H. unfold column. rewrite lookup_map, H. reflexivity. Qed.

(** Making the columns numeric changes no value the scorer reads. *)
Lemma to_numeric_coerce c : to_numeric (coerce_cell c) = to_numeric c.
Proof. destruct c; reflexivity. Qed.

Lemma column_numeric field (df : list Listing) :
  (forall l, field (ensure_numeric l) = coerce_cell (field l)) ->
  column field (map ensure_numeric df) = column field df.
Proof.
  intros H. unfold column. rewrite map_map. apply map_ext.
  intros l. rewrite H. apply to_numeric_coerce.
Qed.

Lemma imap_map {A B C : Type} (f : nat -> B -> C) (g : A -> B) (l : list A) :
  imap f (map g l) = imap (fun i x => f i (g x)) l.
Proof.
  apply list_eq. intros i. rewrite !list_lookup_imap, lookup_map.
  destruct (l !! i); reflexivity.
Qed.

Lemma scored_row_raw df i r :
  compute_value_scores df !! i = Some r ->
  exists l,
    df !! i = Some l
    /\ r = mkScored (ensure_numeric l)
             (at_label (_normalize (column price_sgd df) true) i)
             (at_label (_normalize (column mileage_km df) true) i)
             (at_label (_normalize (column depreciation_per_year df) true) i)
             (at_label (_normalize (column year df) false) i)
             (at_label (score_column df) i)
             (at_label (rank_dense_desc (score_column df)) i).
Proof.
  unfold compute_value_scores. cbv zeta.
  rewrite !imap_map.
  rewrite (column_numeric price_sgd), (column_numeric mileage_km),
    (column_numeric depreciation_per_year), (column_numeric year)
    by reflexivity.
  rewrite list_lookup_imap.
  destruct (df !! i) as [l|]; [| discriminate].
  simpl. intros [= <-]. exists l. split; reflexivity.
Qed.

Lemma rank_defined scores i :
  is_Some (at_label (rank_dense_desc scores) i) <-> is_Some (at_label scores i).
Proof.
  unfold rank_dense_desc, at_label. rewrite lookup_map.
  destruct (scores !! i) as [[x|]|]; simpl;
    split; intros [y Hy]; try discriminate Hy; eexists; reflexivity.
Qed.

Lemma scored_row df i r :
  compute_value_scores df !! i = Some r ->
  (exists l, df !! i = Some l /\ listing r = ensure_numeric l)
  /\ value_price r = norm_at (column price_sgd df) true (to_numeric (price_sgd (listing r)))
  /\ value_mileage r
     = norm_at (column mileage_km df) true (to_numeric (mileage_km (listing r)))
  /\ value_depreciation r
     = norm_at (column depreciation_per_year df) true
         (to_numeric (depreciation_per_year (listing r)))
  /\ value_year r = norm_at (column year df) false (to_numeric (year (listing r)))
  /\ value_score r
     = composite (value_price r) (value_mileage r) (value_depreciation r) (value_year r)
  /\ (is_Some (value_rank r) <-> is_Some (value_score r)).
Proof.
  intros Hr. destruct (scored_row_raw df i r Hr) as (l & El & ->). simpl.
  pose proof (fun field reverse =>
                normalize_at (column field df) reverse i _ (column_lookup field df i l El))
    as Hn.
  assert (Hs : at_label (score_column df) i
               = composite
                   (norm_at (column price_sgd df) true (to_numeric (price_sgd l)))
                   (norm_at (column mileage_km df) true (to_numeric (mileage_km l)))
                   (norm_at (column depreciation_per_year df) true
                      (to_numeric (depreciation_per_year l)))
                   (norm_at (column year df) false (to_numeric (year l)))).
  { unfold at_label at 1. unfold score_column. rewrite list_lookup_imap, El. simpl.
    rewrite !Hn. reflexivity. }
  rewrite !to_numeric_coerce, !Hn.
  split; [exists l; split; [exact El | reflexivity] |].
  repeat (split; [reflexivity || exact Hs |]).
  apply rank_defined.
Qed.

Lemma composite_defined vp vm vd vy :
  is_Some (composite vp vm vd vy)
  <-> is_Some vp /\ is_Some vm /\ is_Some vd /\ is_Some vy.
Proof.
  destruct vp, vm, vd, vy; simpl; split;
    try (intros [y Hy]; discriminate Hy);
    try (intros (H1 & H2 & H3 & [y Hy]); discriminate Hy);
    try (intros (H1 & H2 & [y Hy] & H4); discriminate Hy);
    try (intros (H1 & [y Hy] & H3 & H4); discriminate Hy);
    try (intros ([y Hy] & H2 & H3 & H4); discriminate Hy).
  - intros _. repeat split; eexists; reflexivity.
  - intros _. eexists; reflexivity.
Qed.

Lemma composite_weighted vp vm vd vy :
  feq (composite vp vm vd vy) (weighted_score vp vm vd vy).
Proof.
  destruct vp, vm, vd, vy; simpl; try exact I.
  unfold w_price, w_mileage, w_depreciation, w_year. lra.
Qed.

(** C2. For every batch and every listing of it, the value score is
    [100 * (0.40 * price + 0.25 * mileage + 0.20 * depreciation
    + 0.15 * year)] over the four components; the price, mileage and
    depreciation components are one minus the batch-relative min-max
    normalisation, the year component is that normalisation itself; and
    the weights sum to one. *)
Theorem value_score_formula df i r :
  compute_value_scores df !! i = Some r ->
  feq (value_score r)
      (weighted_score (value_price r) (value_mileage r)
                      (value_depreciation r) (value_year r))
  /\ (exists n, norm_of (column price_sgd df) (to_numeric (price_sgd (listing r))) n
                /\ feq (value_price r) (inverted n))
  /\ (exists n, norm_of (column mileage_km df) (to_numeric (mileage_km (listing r))) n
                /\ feq (value_mileage r) (inverted n))
  /\ (exists n, norm_of (column depreciation_per_year df)
                  (to_numeric (depreciation_per_year (listing r))) n
                /\ feq (value_depreciation r) (inverted n))
  /\ (exists n, norm_of (column year df) (to_numeric (year (listing r))) n
                /\ feq (value_year r) n)
  /\ (40 # 100) + (25 # 100) + (20 # 100) + (15 # 100) == 1.
Proof.
  intros Hr.
  destruct (scored_row df i r Hr) as (_ & -> & -> & -> & -> & -> & _).
  split; [apply composite_weighted |].
  split; [apply (norm_at_spec _ true) |].
  split; [apply (norm_at_spec _ true) |].
  split; [apply (norm_at_spec _ true) |].
  split; [apply (norm_at_spec _ false) |].
  reflexivity.
Qed.

Lemma value_score_formula_witness :
  exists r,
    compute_value_scores demo_batch !! 1%nat = Some r
    /\ feq (value_score r)
           (weighted_score (value_price r) (value_mileage r)
                           (value_depreciation r) (value_year r)).
Proof.
  eexists. split; [reflexivity |].
  apply (value_score_formula demo_batch 1%nat). reflexivity.
Defined.

(** C3, as the code has it. A missing or non-numeric attribute is
    unknown, not zero. For every listing of a batch, a component is
    defined exactly when the attribute is known or its column is
    degenerate, and it is the neutral 0.5 on a degenerate column; the
    value score is defined exactly when all four components are, and the
    rank exactly when the score is. *)
Theorem unknown_attribute_scoring df i r :
  compute_value_scores df !! i = Some r ->
  known (to_numeric CNull) = None /\ known (to_numeric CText) = None
  /\ (is_Some (value_price r)
      <-> scorable (column price_sgd df) (to_numeric (price_sgd (listing r))))
  /\ (is_Some (value_mileage r)
      <-> scorable (column mileage_km df) (to_numeric (mileage_km (listing r))))
  /\ (is_Some (value_depreciation r)
      <-> scorable (column depreciation_per_year df)
            (to_numeric (depreciation_per_year (listing r))))
  /\ (is_Some (value_year r)
      <-> scorable (column year df) (to_numeric (year (listing r))))
  /\ (degenerate (column price_sgd df) -> value_price r = Some half)
  /\ (degenerate (column mileage_km df) -> value_mileage r = Some half)
  /\ (degenerate (column depreciation_per_year df) -> value_depreciation r = Some half)
  /\ (degenerate (column year df) -> value_year r = Some half)
  /\ (is_Some (value_score r)
      <-> is_Some (value_price r) /\ is_Some (value_mileage r)
          /\ is_Some (value_depreciation r) /\ is_Some (value_year r))
  /\ (is_Some (value_rank r) <-> is_Some (value_score r)).
Proof.
  intros Hr.
  destruct (scored_row df i r Hr) as (_ & Hp & Hm & Hd & Hy & Hs & Hrank).
  split; [reflexivity |]. split; [reflexivity |].
  rewrite Hs, Hp, Hm, Hd, Hy.
  repeat (split; [apply norm_at_scorable |]).
  repeat (split; [apply norm_at_degenerate |]).
  split; [apply composite_defined |].
  rewrite <- Hp, <- Hm, <- Hd, <- Hy, <- Hs. exact Hrank.
Qed.

Lemma unknown_attribute_scoring_witness :
  exists r,
    compute_value_scores demo_batch !! 0%nat = Some r
    /\ (degenerate (column depreciation_per_year demo_batch) ->
        value_depreciation r = Some half).
Proof.
  eexists. split; [reflexivity |].
  apply (unknown_attribute_scoring demo_batch 0%nat). reflexivity.
Defined.

(** C3 as stated fails: in a batch whose other prices differ, the listing
    without a price gets no price component, no value score and no
    rank. *)
Lemma missing_price_unscored :
  exists r,
    compute_value_scores batch_missing_price !! 0%nat = Some r
    /\ price_sgd (listing r) = CNull
    /\ value_price r = None
    /\ value_score r = None
    /\ value_rank r = None.
Proof. eexists. split; [reflexivity |]. repeat split. Qed.

(** C8, as the code has it. In one scored batch, of two listings that
    agree on mileage, depreciation per year and year, the one with the
    strictly lower known price has a value score at least as high,
    provided both listings have a value score. *)
Theorem lower_price_scores_higher df i j ri rj pi pj si sj :
  compute_value_scores df !! i = Some ri ->
  compute_value_scores df !! j = Some rj ->
  known (to_numeric (price_sgd (listing ri))) = Some pi ->
  known (to_numeric (price_sgd (listing rj))) = Some pj ->
  pi < pj ->
  same (mileage_km (listing ri)) (mileage_km (listing rj)) ->
  same (depreciation_per_year (listing ri)) (depreciation_per_year (listing rj)) ->
  same (year (listing ri)) (year (listing rj)) ->
  value_score ri = Some si ->
  value_score rj = Some sj ->
  sj <= si.
Proof.
  intros Hri Hrj Hpi Hpj Hlt Hm Hd Hy Hsi Hsj.
  destruct (scored_row df i ri Hri) as (_ & Pi & Mi & Di & Yi & Si & _).
  destruct (scored_row df j rj Hrj) as (_ & Pj & Mj & Dj & Yj & Sj & _).
  destruct (norm_at_price_monotone (column price_sgd df) _ _ pi pj Hpi Hpj Hlt)
    as (a1 & a2 & Ea1 & Ea2 & Ha).
  pose proof (norm_at_same (column mileage_km df) true _ _ Hm) as Em.
  pose proof (norm_at_same (column depreciation_per_year df) true _ _ Hd) as Ed.
  pose proof (norm_at_same (column year df) false _ _ Hy) as Ey.
  rewrite <- Mi, <- Mj in Em. rewrite <- Di, <- Dj in Ed. rewrite <- Yi, <- Yj in Ey.
  rewrite Ea1 in Pi. rewrite Ea2 in Pj.
  rewrite Hsi, Pi in Si. rewrite Hsj, Pj in Sj.
  destruct (value_mileage ri) as [b1|], (value_mileage rj) as [b2|];
    simpl in Em; try contradiction; try discriminate Si.
  destruct (value_depreciation ri) as [c1|], (value_depreciation rj) as [c2|];
    simpl in Ed; try contradiction; try discriminate Si.
  destruct (value_year ri) as [d1|], (value_year rj) as [d2|];
    simpl in Ey; try contradiction; try discriminate Si.
  simpl in Si, Sj. injection Si as ->. injection Sj as ->.
  unfold w_price, w_mileage, w_depreciation, w_year. lra.
Qed.

Lemma lower_price_scores_higher_witness :
  exists ri rj si sj,
    compute_value_scores demo_batch !! 0%nat = Some ri
    /\ compute_value_scores demo_batch !! 1%nat = Some rj
    /\ value_score ri = Some si /\ value_score rj = Some sj
    /\ sj <= si.
Proof.
  eexists _, _, _, _.
  split; [reflexivity |]. split; [reflexivity |].
  split; [reflexivity |]. split; [reflexivity |].
  eapply (lower_price_scores_higher demo_batch 0%nat 1%nat)
    with (pi := 85000) (pj := 95000); reflexivity.
Defined.

(** C8 as stated fails: two listings that both lack a mileage, in a batch
    whose known mileages differ, have no value score, and no score is
    at least another. *)
Lemma lower_price_unscored :
  exists r0 r1,
    compute_value_scores batch_missing_mileage !! 0%nat = Some r0
    /\ compute_value_scores batch_missing_mileage !! 1%nat = Some r1
    /\ price_sgd (listing r0) = CNum 1 /\ price_sgd (listing r1) = CNum 2
    /\ mileage_km (listing r0) = mileage_km (listing r1)
    /\ depreciation_per_year (listing r0) = depreciation_per_year (listing r1)
    /\ year (listing r0) = year (listing r1)
    /\ value_score r0 = None /\ value_score r1 = None
    /\ ~ fge (value_score r0) (value_score r1).
Proof.
  eexists _, _. split; [reflexivity |]. split; [reflexivity |].
  repeat split. intros H. exact H.
Qed.

End ValueModelProofs.

(** ** db_search.py: further properties *)

Module DbSearchMore.
Import DbSearch DbSearchProofs.

Lemma bind_inv {A B : Type} (r : result A) (k : A -> result B) (b : B) :
  (r ≫= k) = Ok b -> exists a, r = Ok a /\ k a = Ok b.
Proof. destruct r as [a|e]; [intros H; exists a; auto | discriminate]. Qed.

(** Building a statement, taken apart. *)
Lemma build_where_inv filters w :
  build_where filters = Ok w ->
  exists c0 c1 c2 c3 c4 c5 c6,
    (if truthy (get (default ∅ filters) "brand")
     then b ← str_lower (get (default ∅ filters) "brand");
          Ok [MakeLike (String "%" (String.append b "%"))]
     else Ok [] : result (list clause)) = Ok c0
    /\ bound PriceGe (get (default ∅ filters) "min_price") = Ok c1
    /\ bound PriceLe (get (default ∅ filters) "max_price") = Ok c2
    /\ bound YearGe (get (default ∅ filters) "min_year") = Ok c3
    /\ bound YearLe (get (default ∅ filters) "max_year") = Ok c4
    /\ bound MileageGe (get (default ∅ filters) "min_mileage") = Ok c5
    /\ bound MileageLe (get (default ∅ filters) "max_mileage") = Ok c6
    /\ w = (c0 ++ c1 ++ c2 ++ c3 ++ c4 ++ c5 ++ c6)%list.
Proof.
  unfold build_where. intros H.
  apply bind_inv in H as (c0 & E0 & H). apply bind_inv in H as (c1 & E1 & H).
  apply bind_inv in H as (c2 & E2 & H). apply bind_inv in H as (c3 & E3 & H).
  apply bind_inv in H as (c4 & E4 & H). apply bind_inv in H as (c5 & E5 & H).
  apply bind_inv in H as (c6 & E6 & H). injection H as <-.
  exists c0, c1, c2, c3, c4, c5, c6. repeat split; assumption.
Qed.

(** The relaxed stages send the brand and price clauses of the first
    stage and nothing else. *)
Lemma build_where_relaxed filters w :
  build_where filters = Ok w ->
  exists c0 c1 c2,
    build_where (Some (relaxed_of filters)) = Ok (c0 ++ c1 ++ c2)%list
    /\ forall c, In c (c0 ++ c1 ++ c2)%list -> In c w.
Proof.
  intros H.
  destruct (build_where_inv filters w H)
    as (c0 & c1 & c2 & c3 & c4 & c5 & c6 & E0 & E1 & E2 & _ & _ & _ & _ & ->).
  exists c0, c1, c2. split.
  - unfold build_where, relaxed_of. simpl default. get_simpl.
    rewrite E0. cbn [mbind result_bind bind]. rewrite E1. cbn [mbind result_bind bind].
    rewrite E2. cbn [bound mbind result_bind bind]. rewrite !app_nil_r. reflexivity.
  - intros c Hc. rewrite !in_app_iff in *. tauto.
Qed.

Lemma search_of_where store filters w limit :
  build_where filters = Ok w -> 0 <= limit ->
  search_cars_in_duckdb store filters limit
  = Ok (take (Z.to_nat limit)
          (merge_sort price_le
             (filter (fun r => forallb (fun c => holds c r) w = true) store))).
Proof.
  intros Hw Hl. unfold search_cars_in_duckdb. rewrite Hw.
  cbn [mbind result_bind bind]. apply execute_ok, Hl.
Qed.

Lemma fallback_returns store filters limit w :
  0 <= limit -> build_where filters = Ok w ->
  exists df, search_with_fallback store filters limit = Ok df.
Proof.
  intros Hl Hw.
  destruct (build_where_relaxed filters w Hw) as (c0 & c1 & c2 & Hr & _).
  unfold search_with_fallback.
  rewrite (search_of_where store filters w limit Hw Hl).
  cbn [mbind result_bind bind].
  destruct (empty _); simpl negb; cbv iota; [| eexists; reflexivity].
  rewrite (search_of_where store _ _ limit Hr Hl).
  cbn [mbind result_bind bind].
  destruct (empty _); simpl negb; cbv iota; [| eexists; reflexivity].
  assert (Hs : build_where (Some (super_relaxed_of (relaxed_of filters)))
               = Ok (c0 ++ c1 ++ c2)%list)
    by (rewrite <- build_where_stage2_stage3; exact Hr).
  rewrite (search_of_where store _ _ limit Hs Hl).
  cbn [mbind result_bind bind].
  destruct (empty _); simpl negb; cbv iota; [| eexists; reflexivity].
  rewrite search_no_filter by exact Hl. eexists; reflexivity.
Qed.

(** X1. Errors come from the first stage only: for a limit that
    is not negative, [search_with_fallback] returns whenever the
    statement of the first stage can be built, and it raises the
    exception of the first stage otherwise; the later stages add no
    error of their own. *)
Theorem fallback_errors_first_stage store filters limit :
  0 <= limit ->
  (forall w, build_where filters = Ok w ->
             exists df, search_with_fallback store filters limit = Ok df)
  /\ (forall e, build_where filters = Raise e ->
                search_with_fallback store filters limit = Raise e).
Proof.
  intros Hl. split.
  - intros w Hw. exact (fallback_returns store filters limit w Hl Hw).
  - intros e He. unfold search_with_fallback, search_cars_in_duckdb.
    rewrite He. reflexivity.
Qed.

Lemma fallback_errors_first_stage_witness :
  exists df,
    search_with_fallback demo_store
      (Some (<["min_price" := PStr " 90_000 "]> ∅)) 5 = Ok df.
Proof.
  apply (proj1 (fallback_errors_first_stage demo_store
                  (Some (<["min_price" := PStr " 90_000 "]> ∅)) 5 ltac:(lia))
           [PriceGe 90000]).
  reflexivity.
Defined.

Lemma bound_clause mk v c l :
  bound mk v = Ok l -> In c l -> exists n, int_of v = Ok n /\ c = mk n /\ v <> PNone.
Proof.
  destruct v as [| n | t]; simpl.
  - intros [= <-] [].
  - intros [= <-] [<- | []]. exists n. repeat split. discriminate.
  - unfold bound. intros H Hc. apply bind_inv in H as (n & En & H).
    injection H as <-. destruct Hc as [<- | []].
    exists n. repeat split; [exact En | discriminate].
Qed.

Lemma bound_present mk n : bound mk (PInt n) = Ok [mk n].
Proof. reflexivity. Qed.

Lemma search_inv store filters limit df :
  search_cars_in_duckdb store filters limit = Ok df ->
  exists w,
    build_where filters = Ok w /\ 0 <= limit
    /\ df = take (Z.to_nat limit)
              (merge_sort price_le
                 (filter (fun r => forallb (fun c => holds c r) w = true) store)).
Proof.
  unfold search_cars_in_duckdb. intros H. apply bind_inv in H as (w & Hw & H).
  exists w. split; [exact Hw |]. unfold execute in H. simpl in H.
  destruct (Z.ltb_spec limit 0); [discriminate H |].
  injection H as <-. split; [lia | reflexivity].
Qed.

Lemma returned_row store w limit r :
  In r (take (Z.to_nat limit)
          (merge_sort price_le
             (filter (fun r => forallb (fun c => holds c r) w = true) store))) ->
  In r store /\ forall c, In c w -> holds c r = true.
Proof.
  intros Hr. apply list_elem_of_In in Hr.
  apply elem_of_take in Hr as (i & Hr & _).
  apply list_elem_of_lookup_2 in Hr.
  rewrite (merge_sort_Permutation price_le) in Hr.
  apply list_elem_of_filter in Hr as [Hm Hin].
  split; [apply list_elem_of_In, Hin |].
  intros c Hc. rewrite forallb_forall in Hm. apply Hm, Hc.
Qed.

Lemma cmp_true test column :
  cmp test column = true -> exists x, column = Some x /\ test x = true.
Proof. destruct column as [x|]; simpl; [eauto | discriminate]. Qed.

(** X2. Every row a query returns is a row of the store that
    meets each integer bound the filters hold, bounds included, with a
    value that is not NULL; and the answer is in price order and no
    longer than the limit. *)
Theorem query_rows_meet_bounds store f limit df r :
  search_cars_in_duckdb store (Some f) limit = Ok df ->
  In r df ->
  In r store
  /\ Sorted price_le df /\ (length df <= Z.to_nat limit)%nat
  /\ (forall n, get f "min_price" = PInt n -> exists p, price_sgd r = Some p /\ n <= p)
  /\ (forall n, get f "max_price" = PInt n -> exists p, price_sgd r = Some p /\ p <= n)
  /\ (forall n, get f "min_year" = PInt n -> exists y, year r = Some y /\ n <= y)
  /\ (forall n, get f "max_year" = PInt n -> exists y, year r = Some y /\ y <= n)
  /\ (forall n, get f "min_mileage" = PInt n ->
                exists m, mileage_km r = Some m /\ n <= m)
  /\ (forall n, get f "max_mileage" = PInt n ->
                exists m, mileage_km r = Some m /\ m <= n).
Proof.
  intros Hs Hr.
  destruct (search_inv _ _ _ _ Hs) as (w & Hw & Hl & ->).
  destruct (returned_row _ _ _ _ Hr) as [Hin Hall].
  destruct (build_where_inv _ _ Hw)
    as (c0 & c1 & c2 & c3 & c4 & c5 & c6 & E0 & E1 & E2 & E3 & E4 & E5 & E6 & ->).
  simpl default in *.
  pose proof price_le_total.
  split; [exact Hin |].
  split; [apply Sorted_take, (Sorted_merge_sort price_le) |].
  split; [rewrite length_take; lia |].
  repeat split; intros n Hn;
    [ rewrite Hn, bound_present in E1; injection E1 as <-;
      specialize (Hall (PriceGe n))
    | rewrite Hn, bound_present in E2; injection E2 as <-;
      specialize (Hall (PriceLe n))
    | rewrite Hn, bound_present in E3; injection E3 as <-;
      specialize (Hall (YearGe n))
    | rewrite Hn, bound_present in E4; injection E4 as <-;
      specialize (Hall (YearLe n))
    | rewrite Hn, bound_present in E5; injection E5 as <-;
      specialize (Hall (MileageGe n))
    | rewrite Hn, bound_present in E6; injection E6 as <-;
      specialize (Hall (MileageLe n)) ];
    (lapply Hall; [clear Hall; intros Hh | rewrite !in_app_iff; simpl; tauto];
     simpl in Hh; apply cmp_true in Hh as (x & Ex & Hx);
     exists x; split; [exact Ex | lia]).
Qed.

Lemma query_rows_meet_bounds_witness :
  exists p, price_sgd (mkRow (Some "Toyota") (Some 95000) (Some 2018) None "listing/2")
            = Some p /\ 90000 <= p.
Proof.
  eapply (query_rows_meet_bounds demo_store (<["min_price" := PInt 90000]> ∅) 1).
  - reflexivity.
  - left. reflexivity.
  - reflexivity.
Defined.

Import QuerySpec.

Lemma bound_meets mk v column (test : Z -> Z -> bool) (ok : Z -> Z -> Prop) r :
  int_or_none v ->
  (forall n, holds (mk n) r = cmp (test n) column) ->
  (forall n x, test n x = true <-> ok n x) ->
  exists l, bound mk v = Ok l
            /\ (forallb (fun c => holds c r) l = true <-> meets_bound v column ok).
Proof.
  intros Hv Hh Ht. destruct v as [| n | s]; simpl in Hv; [| | contradiction].
  - exists []. split; [reflexivity |]. split; [| reflexivity].
    intros _ n Hn. discriminate Hn.
  - exists [mk n]. split; [reflexivity |]. simpl. rewrite andb_true_r, Hh.
    split.
    + intros H m [= <-]. apply cmp_true in H as (x & Ex & Hx).
      exists x. split; [exact Ex | apply Ht, Hx].
    + intros H. destruct (H n eq_refl) as (x & -> & Hx). simpl. apply Ht, Hx.
Qed.

Lemma brand_meets v r :
  str_or_none v ->
  exists l,
    (if truthy v
     then b ← str_lower v; Ok [MakeLike (String "%" (String.append b "%"))]
     else Ok [] : result (list clause)) = Ok l
    /\ (forallb (fun c => holds c r) l = true <-> meets_brand v (make r)).
Proof.
  intros Hv. destruct v as [| n | s]; simpl in Hv; [| contradiction |].
  - exists []. split; [reflexivity |]. split; [| reflexivity].
    intros _ s Hs. discriminate Hs.
  - simpl truthy. destruct (String.eqb_spec s EmptyString) as [-> | Hne]; simpl negb.
    + exists []. split; [reflexivity |]. split; [| reflexivity].
      intros _ s [= <-] Hs. contradiction.
    + eexists. split; [reflexivity |]. simpl forallb. rewrite andb_true_r.
      split.
      * intros H t [= <-] _. destruct (make r) as [m|]; [| discriminate H].
        exists m. split; [reflexivity | exact H].
      * intros H. destruct (H s eq_refl Hne) as (m & -> & Hm). exact Hm.
Qed.

(** For well-typed filters the statement sent selects the rows that meet
    the filters. *)
Lemma where_matches f r :
  well_typed f ->
  exists w, build_where (Some f) = Ok w
            /\ (forallb (fun c => holds c r) w = true <-> matches f r).
Proof.
  intros (Hb & H1 & H2 & H3 & H4 & H5 & H6).
  destruct (brand_meets _ r Hb) as (c0 & E0 & M0).
  destruct (bound_meets PriceGe _ (price_sgd r) (fun n x => n <=? x)
              (fun n x => n <= x) r H1) as (c1 & E1 & M1);
    [reflexivity | intros; apply Z.leb_le |].
  destruct (bound_meets PriceLe _ (price_sgd r) (fun n x => x <=? n)
              (fun n x => x <= n) r H2) as (c2 & E2 & M2);
    [reflexivity | intros; apply Z.leb_le |].
  destruct (bound_meets YearGe _ (year r) (fun n x => n <=? x)
              (fun n x => n <= x) r H3) as (c3 & E3 & M3);
    [reflexivity | intros; apply Z.leb_le |].
  destruct (bound_meets YearLe _ (year r) (fun n x => x <=? n)
              (fun n x => x <= n) r H4) as (c4 & E4 & M4);
    [reflexivity | intros; apply Z.leb_le |].
  destruct (bound_meets MileageGe _ (mileage_km r) (fun n x => n <=? x)
              (fun n x => n <= x) r H5) as (c5 & E5 & M5);
    [reflexivity | intros; apply Z.leb_le |].
  destruct (bound_meets MileageLe _ (mileage_km r) (fun n x => x <=? n)
              (fun n x => x <= n) r H6) as (c6 & E6 & M6);
    [reflexivity | intros; apply Z.leb_le |].
  exists (c0 ++ c1 ++ c2 ++ c3 ++ c4 ++ c5 ++ c6)%list. split.
  - unfold build_where. simpl default.
    rewrite E0. cbn [mbind result_bind bind]. rewrite E1. cbn [mbind result_bind bind].
    rewrite E2. cbn [mbind result_bind bind]. rewrite E3. cbn [mbind result_bind bind].
    rewrite E4. cbn [mbind result_bind bind]. rewrite E5. cbn [mbind result_bind bind].
    rewrite E6. reflexivity.
  - rewrite !forallb_app, !andb_true_iff. unfold matches.
    rewrite M0, M1, M2, M3, M4, M5, M6. tauto.
Qed.

Lemma where_unique f w w' :
  build_where (Some f) = Ok w -> build_where (Some f) = Ok w' -> w = w'.
Proof. congruence. Qed.

(** X3. For well-typed filters and a limit that is not
    negative, a query returns the first [limit] of the rows that meet the
    filters, in price order: followed by the rows it leaves out, its
    answer is a price-ordered rearrangement of exactly the store rows
    that meet every filter that is set, so a row left out costs at least
    as much as every row returned. *)
Theorem query_returns_cheapest_matching store f limit :
  well_typed f -> 0 <= limit ->
  exists w df rest,
    search_cars_in_duckdb store (Some f) limit = Ok df
    /\ length df = Nat.min (Z.to_nat limit) (length (df ++ rest))
    /\ Sorted price_le (df ++ rest)
    /\ df ++ rest ≡ₚ filter (fun r => forallb (fun c => holds c r) w = true) store
    /\ (forall r, forallb (fun c => holds c r) w = true <-> matches f r)
    /\ (forall r r', In r df -> In r' rest -> price_le r r').
Proof.
  intros Hf Hl.
  destruct (build_where_typed f Hf) as [w Hw].
  set (matching := filter (fun r => forallb (fun c => holds c r) w = true) store).
  exists w, (take (Z.to_nat limit) (merge_sort price_le matching)),
         (drop (Z.to_nat limit) (merge_sort price_le matching)).
  pose proof price_le_total. pose proof price_le_trans.
  rewrite take_drop.
  split; [apply (search_of_where store (Some f) w limit Hw Hl) |].
  split; [apply length_take |].
  split; [apply (Sorted_merge_sort price_le) |].
  split; [apply merge_sort_Permutation |].
  split.
  - intros r. destruct (where_matches f r Hf) as (w' & Hw' & Hm).
    rewrite (where_unique f w w' Hw Hw'). exact Hm.
  - intros r r' Hr Hr'.
    pose proof (StronglySorted_merge_sort price_le matching) as Hss.
    rewrite <- (take_drop (Z.to_nat limit) (merge_sort price_le matching)) in Hss.
    apply (StronglySorted_app_1_elem_of price_le _ _ r r' Hss);
      apply list_elem_of_In; assumption.
Qed.

Lemma query_returns_cheapest_matching_witness :
  exists w df rest,
    search_cars_in_duckdb demo_store (Some demo_filters) 2 = Ok df
    /\ length df = Nat.min (Z.to_nat 2) (length (df ++ rest))
    /\ Sorted price_le (df ++ rest)
    /\ df ++ rest
       ≡ₚ filter (fun r => forallb (fun c => holds c r) w = true) demo_store
    /\ (forall r, forallb (fun c => holds c r) w = true <-> matches demo_filters r)
    /\ (forall r r', In r df -> In r' rest -> price_le r r').
Proof.
  apply (query_returns_cheapest_matching demo_store demo_filters 2).
  - vm_compute. tauto.
  - lia.
Defined.

(** X4. For a non-empty brand that holds neither [%] nor
    [_], every row a query returns has a make, and the lower-cased brand
    occurs in the lower-cased make: the brand filter is a substring test
    that ignores case. *)
Theorem query_brand_is_substring store f limit df s r :
  search_cars_in_duckdb store (Some f) limit = Ok df ->
  get f "brand" = PStr s -> s <> EmptyString -> wildcard_free (lower s) = true ->
  In r df ->
  exists m, make r = Some m /\ contains (lower s) (lower m) = true.
Proof.
  intros Hs Hb Hne Hwf Hr.
  destruct (search_inv _ _ _ _ Hs) as (w & Hw & Hl & ->).
  destruct (returned_row _ _ _ _ Hr) as [_ Hall].
  destruct (build_where_inv _ _ Hw) as (c0 & c1 & c2 & c3 & c4 & c5 & c6 & E0 & _ & _ & _ & _ & _ & _ & ->).
  simpl default in E0. rewrite Hb in E0. simpl truthy in E0.
  destruct (String.eqb_spec s EmptyString) as [-> | _]; [contradiction |].
  simpl in E0. injection E0 as <-.
  specialize (Hall (MakeLike (String "%" (String.append (lower s) "%")))
                ltac:(left; reflexivity)).
  simpl in Hall. destruct (make r) as [m|]; [| discriminate Hall].
  exists m. split; [reflexivity |].
  rewrite <- (like_substring (lower s) (lower m) Hwf). exact Hall.
Qed.

Lemma query_brand_is_substring_witness :
  exists m,
    make (mkRow (Some "Toyota") (Some 85000) (Some 2016) (Some 90000) "listing/3")
    = Some m /\ contains (lower "TOY") (lower m) = true.
Proof.
  apply (query_brand_is_substring demo_store (<["brand" := PStr "TOY"]> ∅) 1
           [mkRow (Some "Toyota") (Some 85000) (Some 2016) (Some 90000) "listing/3"]
           "TOY").
  - reflexivity.
  - reflexivity.
  - discriminate.
  - reflexivity.
  - left. reflexivity.
Defined.

Lemma fallback_is_a_stage store filters limit df :
  search_with_fallback store filters limit = Ok df ->
  exists f', search_cars_in_duckdb store f' limit = Ok df.
Proof.
  unfold search_with_fallback. intros H.
  apply bind_inv in H as (df1 & E1 & H).
  destruct (empty df1); simpl negb in H; cbv iota in H;
    [| injection H as <-; eauto].
  apply bind_inv in H as (df2 & E2 & H).
  destruct (empty df2); simpl negb in H; cbv iota in H;
    [| injection H as <-; eauto].
  apply bind_inv in H as (df3 & E3 & H).
  destruct (empty df3); simpl negb in H; cbv iota in H;
    [| injection H as <-; eauto].
  eauto.
Qed.

(** X5. Whatever stage answers, what [search_with_fallback]
    returns is in price order with NULL prices last, holds no more rows
    than the limit, and holds rows of the store only. *)
Theorem fallback_answer_shape store filters limit df :
  search_with_fallback store filters limit = Ok df ->
  Sorted price_le df
  /\ (Z.of_nat (length df) <= limit)
  /\ (forall r, In r df -> In r store).
Proof.
  intros H. destruct (fallback_is_a_stage _ _ _ _ H) as (f' & Hs).
  destruct (search_inv _ _ _ _ Hs) as (w & Hw & Hl & ->).
  pose proof price_le_total.
  split; [apply Sorted_take, (Sorted_merge_sort price_le) |].
  split; [rewrite length_take; lia |].
  intros r Hr. apply (returned_row _ _ _ _ Hr).
Qed.

Lemma fallback_answer_shape_witness :
  exists df,
    search_with_fallback demo_store (Some demo_filters) 2 = Ok df
    /\ Sorted price_le df /\ (Z.of_nat (length df) <= 2).
Proof.
  eexists. split; [reflexivity |].
  split; eapply (fallback_answer_shape demo_store (Some demo_filters) 2); reflexivity.
Defined.

(** X6. Over an empty store [search_with_fallback] returns an
    empty answer, not an error, whenever the statement of its first stage
    can be built and the limit is not negative. *)
Theorem fallback_empty_store filters limit w :
  build_where filters = Ok w -> 0 <= limit ->
  search_with_fallback [] filters limit = Ok [].
Proof.
  intros Hw Hl.
  destruct (fallback_returns [] filters limit w Hl Hw) as [df Hdf].
  rewrite Hdf. f_equal.
  destruct (fallback_is_a_stage _ _ _ _ Hdf) as (f' & Hs).
  destruct (search_inv _ _ _ _ Hs) as (w' & _ & _ & ->).
  rewrite filter_nil. change (merge_sort price_le []) with (@nil Row).
  apply take_nil.
Qed.

Lemma fallback_empty_store_witness :
  search_with_fallback [] (Some demo_filters) 80 = Ok [].
Proof.
  apply (fallback_empty_store (Some demo_filters) 80
           [MakeLike "%kia%"; PriceGe 90000]).
  - reflexivity.
  - lia.
Defined.

End DbSearchMore.

(** ** filters.py: the dataclass route *)

Module ProfileToFiltersProofs.
Import ProfileToFilters.

Lemma lower_or_empty_typed v :
  none_or Filters.is_string v -> exists s, lower_or_empty v = Ok s.
Proof.
  intros [-> | H]; [eexists; reflexivity |].
  destruct v as [| n | s]; simpl in H; try contradiction.
  unfold lower_or_empty, or_else. destruct (truthy (PStr s)); eexists; reflexivity.
Qed.

Lemma or_else_string v s :
  none_or Filters.is_string v -> none_or Filters.is_string (or_else v (PStr s)).
Proof.
  intros H. unfold or_else. destruct (truthy v); [exact H | right; exact I].
Qed.

(** X7. With a clock at or after the year 2000, [_derive_year_range]
    returns, for any text or [None], a range that ends at the current
    year and starts 6, 15 or 10 years earlier, but never before 2000; the
    range is in order. *)
Theorem year_range_in_order Y age_pref :
  2000 <= Y -> none_or Filters.is_string age_pref ->
  exists lo,
    _derive_year_range Y age_pref = Ok (lo, Y)
    /\ 2000 <= lo <= Y
    /\ (lo = Z.max 2000 (Y - 6) \/ lo = Z.max 2000 (Y - 15)
        \/ lo = Z.max 2000 (Y - 10)).
Proof.
  intros HY Hs. unfold _derive_year_range.
  destruct (lower_or_empty_typed age_pref Hs) as [s ->].
  cbn [mbind result_bind bind].
  destruct (String.eqb s "latest_tech");
    [| destruct (String.eqb s "value_for_money")];
    eexists; (split; [reflexivity |]);
    match goal with
    | |- context [?a <? 2000] => destruct (Z.ltb_spec a 2000)
    end; lia.
Qed.

Lemma year_range_in_order_witness :
  exists lo,
    _derive_year_range 2025 (PStr "Value_For_Money") = Ok (lo, 2025)
    /\ 2000 <= lo <= 2025
    /\ (lo = Z.max 2000 (2025 - 6) \/ lo = Z.max 2000 (2025 - 15)
        \/ lo = Z.max 2000 (2025 - 10)).
Proof.
  apply (year_range_in_order 2025 (PStr "Value_For_Money")).
  - lia.
  - right. exact I.
Defined.

Lemma price_band_cases budget :
  none_or Filters.is_budget budget ->
  (Filters._derive_price_band budget = Ok (PNone, PNone)
   /\ (budget = PNone \/ exists n, budget = PInt n /\ n <= 0))
  \/ (exists n lo hi,
        budget = PInt n /\ 0 < n
        /\ int_mul_float (PInt n) f0_8 = Ok lo
        /\ int_mul_float (PInt n) f1_2 = Ok hi
        /\ Filters._derive_price_band budget = Ok (PInt lo, PInt hi)).
Proof.
  intros [-> | H]; [left; split; [reflexivity | left; reflexivity] |].
  destruct budget as [| n | s]; simpl in H; try contradiction.
  unfold Filters._derive_price_band. simpl truthy.
  destruct (Z.eqb_spec n 0) as [-> | Hn0]; simpl negb; cbv iota.
  - left. split; [reflexivity | right; exists 0; split; [reflexivity | lia]].
  - cbn [le_int mbind result_bind bind].
    destruct (Z.leb_spec n 0) as [Hle | Hgt].
    + left. split; [reflexivity | right; exists n; split; [reflexivity | exact Hle]].
    + right.
      destruct (FloatProofs.int_mul_float_returns n 7205759403792794 (-53) H)
        as [lo Elo]; [change (2 ^ 53) with 9007199254740992; lia | lia |].
      destruct (FloatProofs.int_mul_float_returns n 5404319552844595 (-52) H)
        as [hi Ehi]; [change (2 ^ 53) with 9007199254740992; lia | lia |].
      fold f0_8 in Elo. fold f1_2 in Ehi.
      exists n, lo, hi. rewrite Elo, Ehi. cbn [mbind result_bind bind].
      repeat split; try reflexivity; assumption.
Qed.

Lemma body_type_code_typed pref family :
  none_or Filters.is_string pref -> none_or Filters.is_int family ->
  exists code, _derive_body_type_code pref family = Ok code
               /\ In code [1; 5; 9; 4; 15].
Proof.
  intros Hp Hf. unfold _derive_body_type_code.
  destruct (lower_or_empty_typed pref Hp) as [s ->]. cbn [mbind result_bind bind].
  destruct (String.eqb s "small"); [eexists; split; [reflexivity | simpl; tauto] |].
  destruct (String.eqb s "suv"); [eexists; split; [reflexivity | simpl; tauto] |].
  destruct (String.eqb s "mpv_7_seater" || String.eqb s "mpv" || String.eqb s "7-seater")%bool;
    [eexists; split; [reflexivity | simpl; tauto] |].
  destruct (String.eqb s "sedan_or_hatchback");
    [eexists; split; [reflexivity | simpl; tauto] |].
  destruct Hf as [-> | Hf]; [eexists; split; [reflexivity | simpl; tauto] |].
  destruct family as [| n | t]; simpl in Hf; try contradiction.
  cbn [le_int mbind result_bind bind].
  destruct (n <=? 2); [eexists; split; [reflexivity | simpl; tauto] |].
  destruct (n <=? 4); eexists; (split; [reflexivity | simpl; tauto]).
Qed.

Lemma clean_or_empty_typed v :
  none_or Filters.is_string v -> exists s, clean_or_empty v = Ok s.
Proof.
  intros [-> | H]; [eexists; reflexivity |].
  destruct v as [| n | s]; simpl in H; try contradiction.
  unfold clean_or_empty, or_else. destruct (truthy (PStr s)); eexists; reflexivity.
Qed.

Lemma typed_field profile key :
  typed_profile profile ->
  In key ["age_preference"; "running_cost_priority"; "owner_tolerance";
          "mileage_tolerance"; "body_type_pref"; "brand_bias"] ->
  none_or Filters.is_string (get profile key).
Proof.
  intros (_ & _ & H) Hk. rewrite Forall_forall in H.
  apply H. apply list_elem_of_In. exact Hk.
Qed.

(** What [profile_to_filters] returns on a typed profile, part by part. *)
Lemma profile_to_filters_typed Y profile brand0 :
  typed_profile profile -> none_or Filters.is_string brand0 ->
  exists bias prices lo mt owners engine code cleaned,
    lower_or_empty (get profile "brand_bias") = Ok bias
    /\ Filters._derive_price_band (get profile "budget_sgd") = Ok prices
    /\ _derive_year_range Y (or_else (get profile "age_preference") (PStr "balanced"))
       = Ok (lo, Y)
    /\ (2000 <= Y -> 2000 <= lo <= Y)
    /\ In mt [120000; 220000; 160000]
    /\ In owners [2; 4; 3]
    /\ In code [1; 5; 9; 4; 15]
    /\ _derive_body_type_code
         (or_else (get profile "body_type_pref") (PStr "sedan_or_hatchback"))
         (get profile "family_size") = Ok code
    /\ clean_or_empty
         (if (negb (truthy brand0)
              && existsb (fun x => contains x bias) ["toyota"; "honda"; "mazda"])%bool
          then PStr "toyota" else brand0) = Ok cleaned
    /\ profile_to_filters Y profile brand0
       = Ok (mkCarFilters cleaned (fst prices) (snd prices) (PInt lo) (PInt Y)
               (PInt 0) (PInt mt) (PInt owners) engine (PInt code) PNone PNone).
Proof.
  intros Ht Hb0. pose proof Ht as (Hbudget & Hfamily & _).
  unfold profile_to_filters.
  destruct (lower_or_empty_typed _ (typed_field profile "brand_bias" Ht ltac:(simpl; tauto)))
    as [bias Ebias].
  rewrite Ebias. cbn [mbind result_bind bind].
  assert (Hprices : exists prices,
             Filters._derive_price_band (get profile "budget_sgd") = Ok prices).
  { destruct (price_band_cases _ Hbudget) as [[E _] | (n & lo & hi & _ & _ & _ & _ & E)];
      eexists; exact E. }
  destruct Hprices as [prices Eprices]. rewrite Eprices. cbn [mbind result_bind bind].
  pose proof (or_else_string _ "balanced"
                (typed_field profile "age_preference" Ht ltac:(simpl; tauto))) as Hage.
  assert (Hyear : exists lo,
             _derive_year_range Y (or_else (get profile "age_preference") (PStr "balanced"))
             = Ok (lo, Y) /\ (2000 <= Y -> 2000 <= lo <= Y)).
  { unfold _derive_year_range.
    destruct (lower_or_empty_typed _ Hage) as [s ->]. cbn [mbind result_bind bind].
    eexists. split; [reflexivity |]. intros HY.
    destruct (String.eqb s "latest_tech");
      [| destruct (String.eqb s "value_for_money")];
      match goal with
      | |- context [?a <? 2000] => destruct (Z.ltb_spec a 2000)
      end; lia. }
  destruct Hyear as (lo & Eyear & Hlo). rewrite Eyear. cbn [mbind result_bind bind].
  pose proof (or_else_string _ "medium"
                (typed_field profile "mileage_tolerance" Ht ltac:(simpl; tauto))) as Hmil.
  assert (Hmt : exists mt,
             _derive_mileage_limit
               (or_else (get profile "mileage_tolerance") (PStr "medium")) = Ok (0, mt)
             /\ In mt [120000; 220000; 160000]).
  { unfold _derive_mileage_limit.
    destruct (lower_or_empty_typed _ Hmil) as [s ->]. cbn [mbind result_bind bind].
    destruct (String.eqb s "low"); [| destruct (String.eqb s "high")];
      eexists; (split; [reflexivity | simpl; tauto]). }
  destruct Hmt as (mt & Emt & Hmt). rewrite Emt. cbn [mbind result_bind bind].
  pose proof (or_else_string _ "medium"
                (typed_field profile "owner_tolerance" Ht ltac:(simpl; tauto))) as Hown.
  assert (Ho : exists owners,
             _derive_owner_limit
               (or_else (get profile "owner_tolerance") (PStr "medium")) = Ok owners
             /\ In owners [2; 4; 3]).
  { unfold _derive_owner_limit.
    destruct (lower_or_empty_typed _ Hown) as [s ->]. cbn [mbind result_bind bind].
    destruct (String.eqb s "low"); [| destruct (String.eqb s "high")];
      eexists; (split; [reflexivity | simpl; tauto]). }
  destruct Ho as (owners & Eo & Ho). rewrite Eo. cbn [mbind result_bind bind].
  pose proof (or_else_string _ "medium"
                (typed_field profile "running_cost_priority" Ht ltac:(simpl; tauto)))
    as Hrcp.
  assert (He : exists engine,
             _derive_engine_category
               (or_else (get profile "running_cost_priority") (PStr "medium"))
             = Ok engine).
  { unfold _derive_engine_category.
    destruct (lower_or_empty_typed _ Hrcp) as [s ->]. cbn [mbind result_bind bind].
    destruct (String.eqb s "high"); [| destruct (String.eqb s "low")];
      eexists; reflexivity. }
  destruct He as (engine & Ee). rewrite Ee. cbn [mbind result_bind bind].
  pose proof (or_else_string _ "sedan_or_hatchback"
                (typed_field profile "body_type_pref" Ht ltac:(simpl; tauto))) as Hbody.
  destruct (body_type_code_typed _ _ Hbody Hfamily) as (code & Ecode & Hcode).
  rewrite Ecode. cbn [mbind result_bind bind].
  assert (Hbrand : none_or Filters.is_string
                     (if (negb (truthy brand0)
                          && existsb (fun x => contains x bias)
                               ["toyota"; "honda"; "mazda"])%bool
                      then PStr "toyota" else brand0)).
  { destruct (negb (truthy brand0) && _)%bool; [right; exact I | exact Hb0]. }
  destruct (clean_or_empty_typed _ Hbrand) as [cleaned Ecl].
  rewrite Ecl. cbn [mbind result_bind bind].
  exists bias, prices, lo, mt, owners, engine, code, cleaned.
  repeat split; try assumption; try reflexivity; apply Hlo; assumption.
Qed.

(** X8. With a clock at or after 2000, on a typed profile
    whose budget, if an integer, is below [2^49], [profile_to_filters]
    returns filters whose price, year and mileage pairs are each in
    order; for a budget that is zero or negative both price bounds are
    unset. *)
Theorem profile_to_filters_in_order Y profile brand0 :
  2000 <= Y -> typed_profile profile -> none_or Filters.is_string brand0 ->
  (forall b, get profile "budget_sgd" = PInt b -> b < 2 ^ 49) ->
  exists f,
    profile_to_filters Y profile brand0 = Ok f
    /\ in_order (min_price f) (max_price f)
    /\ in_order (min_year f) (max_year f)
    /\ in_order (min_mileage f) (max_mileage f)
    /\ (forall b, get profile "budget_sgd" = PInt b -> b <= 0 ->
        min_price f = PNone /\ max_price f = PNone).
Proof.
  intros HY Ht Hb0 Hsmall.
  destruct (profile_to_filters_typed Y profile brand0 Ht Hb0)
    as (bias & prices & lo & mt & owners & engine & code & cleaned
        & _ & Eprices & _ & Hlo & Hmt & _ & _ & _ & _ & ->).
  eexists. split; [reflexivity |]. simpl.
  destruct Ht as (Hbudget & _).
  split; [| split; [| split]].
  - destruct (price_band_cases _ Hbudget)
      as [[E _] | (n & l & h & En & Hn & El & Eh & E)];
      rewrite E in Eprices; injection Eprices as <-; simpl.
    + intros a b Ha. discriminate Ha.
    + specialize (Hsmall n En).
      rewrite FloatProofs.int_mul_0_8 in El by lia.
      rewrite FloatProofs.int_mul_1_2 in Eh by lia.
      injection El as <-. injection Eh as <-.
      intros a b [= <-] [= <-]. apply Z.div_le_mono; lia.
  - intros a b [= <-] [= <-]. specialize (Hlo HY). lia.
  - intros a b [= <-] [= <-]. simpl in Hmt. lia.
  - intros b Eb Hb.
    destruct (price_band_cases _ Hbudget)
      as [[E _] | (n & l & h & En & Hn & _ & _ & _)].
    + rewrite E in Eprices. injection Eprices as <-. split; reflexivity.
    + rewrite Eb in En. injection En as <-. lia.
Qed.

Lemma profile_to_filters_in_order_witness :
  exists f,
    profile_to_filters 2025 negative_budget_profile PNone = Ok f
    /\ in_order (min_price f) (max_price f)
    /\ in_order (min_year f) (max_year f)
    /\ in_order (min_mileage f) (max_mileage f)
    /\ (forall b, get negative_budget_profile "budget_sgd" = PInt b -> b <= 0 ->
        min_price f = PNone /\ max_price f = PNone).
Proof.
  apply (profile_to_filters_in_order 2025 negative_budget_profile PNone).
  - lia.
  - unfold typed_profile, negative_budget_profile. get_simpl.
    split; [right; vm_compute; reflexivity |].
    split; [left; reflexivity |].
    repeat constructor; get_simpl;
      first [left; reflexivity | right; exact I].
  - left. reflexivity.
  - unfold negative_budget_profile. get_simpl. intros b [= <-]. reflexivity.
Defined.

(** X9. On a typed profile [profile_to_filters] takes a brand
    that is given, stripped and lower-cased, as it is; without one it
    infers the brand from the brand bias alone, and what it infers is
    ["toyota"] whenever the bias names Toyota, Honda or Mazda, and no
    brand otherwise. *)
Theorem profile_to_filters_brand Y profile brand0 :
  typed_profile profile -> none_or Filters.is_string brand0 ->
  exists f bias,
    profile_to_filters Y profile brand0 = Ok f
    /\ lower_or_empty (get profile "brand_bias") = Ok bias
    /\ (forall s, brand0 = PStr s -> s <> EmptyString -> brand f = lower (strip s))
    /\ (truthy brand0 = false ->
        brand f = if existsb (fun x => contains x bias) ["toyota"; "honda"; "mazda"]
                  then "toyota" else EmptyString).
Proof.
  intros Ht Hb0.
  destruct (profile_to_filters_typed Y profile brand0 Ht Hb0)
    as (bias & prices & lo & mt & owners & engine & code & cleaned
        & Ebias & _ & _ & _ & _ & _ & _ & _ & Ecl & ->).
  eexists _, bias. split; [reflexivity |]. split; [exact Ebias |]. cbn [brand]. split.
  - intros s -> Hne. simpl truthy in Ecl.
    destruct (String.eqb_spec s EmptyString) as [-> | _]; [contradiction |].
    simpl in Ecl. unfold clean_or_empty, or_else in Ecl. simpl truthy in Ecl.
    destruct (String.eqb_spec s EmptyString) as [-> | _]; [contradiction |].
    simpl in Ecl. injection Ecl as <-. reflexivity.
  - intros Hfalse. rewrite Hfalse in Ecl. simpl negb in Ecl. rewrite andb_true_l in Ecl.
    destruct (existsb _ _).
    + vm_compute in Ecl. injection Ecl as <-. reflexivity.
    + unfold clean_or_empty, or_else in Ecl. rewrite Hfalse in Ecl.
      vm_compute in Ecl. injection Ecl as <-. reflexivity.
Qed.

Lemma profile_to_filters_brand_witness :
  exists f bias,
    profile_to_filters 2025 honda_profile PNone = Ok f
    /\ lower_or_empty (get honda_profile "brand_bias") = Ok bias
    /\ (forall s, PNone = PStr s -> s <> EmptyString -> brand f = lower (strip s))
    /\ (truthy PNone = false ->
        brand f = if existsb (fun x => contains x bias) ["toyota"; "honda"; "mazda"]
                  then "toyota" else EmptyString).
Proof.
  apply (profile_to_filters_brand 2025 honda_profile PNone).
  - unfold typed_profile, honda_profile. get_simpl.
    split; [left; reflexivity |]. split; [left; reflexivity |].
    repeat constructor; get_simpl; first [left; reflexivity | right; exact I].
  - left. reflexivity.
Defined.

(** X10. On a typed profile whose body type preference is
    absent, [None] or empty, [profile_to_filters] sets the body type
    code to 4 (sedan) whatever the family size: the family-size rule is
    not consulted. *)
Theorem profile_to_filters_body_default Y profile brand0 :
  typed_profile profile -> none_or Filters.is_string brand0 ->
  truthy (get profile "body_type_pref") = false ->
  exists f, profile_to_filters Y profile brand0 = Ok f
            /\ body_type_code f = PInt 4.
Proof.
  intros Ht Hb0 Hbody.
  destruct (profile_to_filters_typed Y profile brand0 Ht Hb0)
    as (bias & prices & lo & mt & owners & engine & code & cleaned
        & _ & _ & _ & _ & _ & _ & _ & Ecode & _ & ->).
  eexists. split; [reflexivity |]. simpl.
  unfold or_else in Ecode. rewrite Hbody in Ecode.
  injection Ecode as <-. reflexivity.
Qed.

Lemma profile_to_filters_body_default_witness :
  exists f, profile_to_filters 2025 large_family_profile PNone = Ok f
            /\ body_type_code f = PInt 4.
Proof.
  apply (profile_to_filters_body_default 2025 large_family_profile PNone).
  - unfold typed_profile, large_family_profile. get_simpl.
    split; [left; reflexivity |]. split; [right; exact I |].
    repeat constructor; get_simpl; first [left; reflexivity | right; exact I].
  - left. reflexivity.
  - reflexivity.
Defined.

(** X11. The filters [profile_to_filters] returns on a typed
    profile, turned into a dictionary by [filters_to_dict], are filters
    the query accepts: [search_with_fallback] raises nothing on them for
    any store and any limit that is not negative. *)
Theorem profile_to_filters_searchable Y profile brand0 store limit :
  typed_profile profile -> none_or Filters.is_string brand0 -> 0 <= limit ->
  exists f df,
    profile_to_filters Y profile brand0 = Ok f
    /\ DbSearch.well_typed (filters_to_dict f)
    /\ DbSearch.search_with_fallback store (Some (filters_to_dict f)) limit = Ok df.
Proof.
  intros Ht Hb0 Hl.
  destruct (profile_to_filters_typed Y profile brand0 Ht Hb0)
    as (bias & prices & lo & mt & owners & engine & code & cleaned
        & _ & Eprices & _ & _ & _ & _ & _ & _ & _ & ->).
  set (f := mkCarFilters _ _ _ _ _ _ _ _ _ _ _ _).
  assert (Hw : DbSearch.well_typed (filters_to_dict f)).
  { unfold DbSearch.well_typed, filters_to_dict. get_simpl. subst f. simpl.
    destruct Ht as (Hbudget & _).
    destruct (price_band_cases _ Hbudget) as [[E _] | (n & l & h & _ & _ & _ & _ & E)];
      rewrite E in Eprices; injection Eprices as <-; simpl; tauto. }
  destruct (DbSearchProofs.build_where_typed _ Hw) as [w Ew].
  destruct (DbSearchMore.fallback_returns store (Some (filters_to_dict f)) limit w Hl Ew)
    as [df Hdf].
  exists f, df. split; [reflexivity | split; assumption].
Qed.

Lemma profile_to_filters_searchable_witness :
  exists f df,
    profile_to_filters 2025 honda_profile PNone = Ok f
    /\ DbSearch.well_typed (filters_to_dict f)
    /\ DbSearch.search_with_fallback DbSearch.demo_store
         (Some (filters_to_dict f)) 80 = Ok df.
Proof.
  apply (profile_to_filters_searchable 2025 honda_profile PNone DbSearch.demo_store 80).
  - unfold typed_profile, honda_profile. get_simpl.
    split; [left; reflexivity |]. split; [left; reflexivity |].
    repeat constructor; get_simpl; first [left; reflexivity | right; exact I].
  - left. reflexivity.
  - lia.
Defined.

End ProfileToFiltersProofs.

(** ** db_search.py: a price band that is out of order *)

Module DbSearchBand.
Import DbSearch DbSearchProofs DbSearchMore QuerySpec.

Lemma filter_nothing (w : list clause) (store : list Row) :
  (forall r, In r store -> forallb (fun c => holds c r) w = false) ->
  filter (fun r => forallb (fun c => holds c r) w = true) store = [].
Proof.
  induction store as [|r store IH]; intros H; [reflexivity |].
  rewrite filter_cons.
  destruct (decide (forallb (fun c => holds c r) w = true)) as [E|_].
  - rewrite (H r (or_introl eq_refl)) in E. discriminate E.
  - apply IH. intros r' Hr'. apply H. right. exact Hr'.
Qed.

(** No row lies in a price band whose lower bound is above its upper
    bound. *)
Lemma inverted_clauses w lo hi r :
  In (PriceGe lo) w -> In (PriceLe hi) w -> hi < lo ->
  forallb (fun c => holds c r) w = false.
Proof.
  intros Hlo Hhi Hlt.
  destruct (forallb (fun c => holds c r) w) eqn:E; [| reflexivity].
  rewrite forallb_forall in E.
  pose proof (E _ Hlo) as H1. pose proof (E _ Hhi) as H2. simpl in H1, H2.
  destruct (price_sgd r) as [p|]; simpl in H1, H2; [| discriminate H1].
  apply Z.leb_le in H1. apply Z.leb_le in H2. lia.
Qed.

Lemma inverted_query store filters w limit lo hi :
  build_where filters = Ok w -> 0 <= limit ->
  In (PriceGe lo) w -> In (PriceLe hi) w -> hi < lo ->
  search_cars_in_duckdb store filters limit = Ok [].
Proof.
  intros Hw Hl Hlo Hhi Hlt.
  rewrite (search_of_where store filters w limit Hw Hl).
  rewrite filter_nothing;
    [change (merge_sort price_le []) with (@nil Row); rewrite take_nil; reflexivity |].
  intros r _. exact (inverted_clauses w lo hi r Hlo Hhi Hlt).
Qed.

(** The price clauses stay in the statement of every stage. *)
Lemma price_clauses_kept f w lo hi :
  build_where (Some f) = Ok w ->
  get f "min_price" = PInt lo -> get f "max_price" = PInt hi ->
  In (PriceGe lo) w /\ In (PriceLe hi) w
  /\ exists w', build_where (Some (relaxed_of (Some f))) = Ok w'
                /\ In (PriceGe lo) w' /\ In (PriceLe hi) w'.
Proof.
  intros Hw Hlo Hhi.
  destruct (build_where_inv _ _ Hw)
    as (c0 & c1 & c2 & c3 & c4 & c5 & c6 & E0 & E1 & E2 & _ & _ & _ & _ & ->).
  simpl default in *.
  assert (H1 : c1 = [PriceGe lo]) by (rewrite Hlo in E1; injection E1 as <-; reflexivity).
  assert (H2 : c2 = [PriceLe hi]) by (rewrite Hhi in E2; injection E2 as <-; reflexivity).
  split; [rewrite !in_app_iff, H1; simpl; tauto |].
  split; [rewrite !in_app_iff, H2; simpl; tauto |].
  exists (c0 ++ c1 ++ c2)%list. split.
  - unfold build_where, relaxed_of. simpl default. get_simpl.
    rewrite E0. cbn [mbind result_bind bind]. rewrite E1. cbn [mbind result_bind bind].
    rewrite E2. cbn [bound mbind result_bind bind]. rewrite !app_nil_r. reflexivity.
  - rewrite !in_app_iff, H1, H2. simpl. tauto.
Qed.

Lemma inverted_fallback store f w limit lo hi :
  build_where (Some f) = Ok w -> 0 <= limit ->
  get f "min_price" = PInt lo -> get f "max_price" = PInt hi -> hi < lo ->
  search_cars_in_duckdb store (Some f) limit = Ok []
  /\ search_with_fallback store (Some f) limit
     = Ok (take (Z.to_nat limit) (merge_sort price_le store)).
Proof.
  intros Hw Hl Hlo Hhi Hlt.
  destruct (price_clauses_kept f w lo hi Hw Hlo Hhi)
    as (I1 & I2 & w' & Hw' & I1' & I2').
  pose proof (inverted_query store _ w limit lo hi Hw Hl I1 I2 Hlt) as S1.
  pose proof (inverted_query store _ w' limit lo hi Hw' Hl I1' I2' Hlt) as S2.
  assert (Hw3 : build_where (Some (super_relaxed_of (relaxed_of (Some f)))) = Ok w')
    by (rewrite <- build_where_stage2_stage3; exact Hw').
  pose proof (inverted_query store _ w' limit lo hi Hw3 Hl I1' I2' Hlt) as S3.
  split; [exact S1 |].
  unfold search_with_fallback.
  rewrite S1. cbn [mbind result_bind bind empty negb].
  rewrite S2. cbn [mbind result_bind bind empty negb].
  rewrite S3. cbn [mbind result_bind bind empty negb].
  apply search_no_filter, Hl.
Qed.

(** X12. When the filters hold a lower price bound above the
    upper one, no preference has any effect on the answer: for a limit
    that is not negative the query itself returns no row, the two
    relaxed stages keep both price bounds and return none either, and
    [search_with_fallback] answers with the cheapest rows of the whole
    store, whatever the brand, year and mileage filters hold. *)
Theorem inverted_band_answers_unfiltered store f w limit lo hi :
  build_where (Some f) = Ok w -> 0 <= limit ->
  get f "min_price" = PInt lo -> get f "max_price" = PInt hi -> hi < lo ->
  search_cars_in_duckdb store (Some f) limit = Ok []
  /\ search_cars_in_duckdb store (Some (relaxed_of (Some f))) limit = Ok []
  /\ search_cars_in_duckdb store
       (Some (super_relaxed_of (relaxed_of (Some f)))) limit = Ok []
  /\ search_with_fallback store (Some f) limit
     = search_cars_in_duckdb store (Some ∅) limit
  /\ search_with_fallback store (Some f) limit
     = Ok (take (Z.to_nat limit) (merge_sort price_le store)).
Proof.
  intros Hw Hl Hlo Hhi Hlt.
  destruct (price_clauses_kept f w lo hi Hw Hlo Hhi)
    as (I1 & I2 & w' & Hw' & I1' & I2').
  destruct (inverted_fallback store f w limit lo hi Hw Hl Hlo Hhi Hlt) as [S1 S4].
  split; [exact S1 |].
  split; [exact (inverted_query store _ w' limit lo hi Hw' Hl I1' I2' Hlt) |].
  split.
  { apply (inverted_query store _ w' limit lo hi); try assumption.
    rewrite <- build_where_stage2_stage3. exact Hw'. }
  split; [| exact S4].
  rewrite S4. symmetry. apply search_no_filter, Hl.
Qed.

Lemma inverted_band_answers_unfiltered_witness :
  search_with_fallback demo_store (Some inverted_filters) 2
  = Ok [ mkRow (Some "Toyota") (Some 85000) (Some 2016) (Some 90000) "listing/3";
         mkRow (Some "Toyota") (Some 95000) (Some 2018) None "listing/2" ].
Proof.
  destruct (inverted_band_answers_unfiltered demo_store inverted_filters
              [MakeLike "%bmw%"; PriceGe (-80); PriceLe (-120)] 2 (-80) (-120))
    as (_ & _ & _ & _ & H).
  - vm_compute. reflexivity.
  - lia.
  - reflexivity.
  - reflexivity.
  - lia.
  - rewrite H. vm_compute. reflexivity.
Defined.

End DbSearchBand.

(** ** filters.py and db_search.py: the builder feeding the query *)

Module BuilderPipeline.
Import Filters FloatProofs FiltersProofs.

(** [int(-b * c)] is [-int(b * c)]: rounding is symmetric and [int]
    truncates toward zero. *)
Lemma round_even_opp n e :
  round_even (- n) e
  = match round_even n e with
    | FFin q x => FFin (- q) x
    | FInf _ => FInf (- n <? 0)
    | FNaN => FNaN
    end.
Proof.
  rewrite (round_even_sign (- n)), (round_even_sign n), Z.abs_opp.
  destruct (round_even (Z.abs n) e) as [q x | s |]; try reflexivity.
  f_equal. rewrite Z.sgn_opp. lia.
Qed.

Lemma int_of_float_opp q x :
  int_of_float (FFin (- q) x)
  = match int_of_float (FFin q x) with
    | Ok z => Ok (- z)
    | Raise err => Raise err
    end.
Proof.
  simpl. destruct (0 <=? x) eqn:E; f_equal; [lia |].
  apply Z.leb_gt in E. apply Z.quot_opp_l.
  apply Z.pow_nonzero; lia.
Qed.

Lemma int_mul_float_opp b m e :
  int_mul_float (PInt (- b)) (FFin m e)
  = match int_mul_float (PInt b) (FFin m e) with
    | Ok z => Ok (- z)
    | Raise err => Raise err
    end.
Proof.
  unfold int_mul_float, mul_float, float_of_int.
  rewrite round_even_opp.
  destruct (round_even b 0) as [q x | s |]; cbn [mbind result_bind bind]; try reflexivity.
  unfold fmul. replace (- q * m) with (- (q * m)) by lia.
  rewrite round_even_opp.
  destruct (round_even (q * m) (x + e)) as [q' x' | s |]; try reflexivity.
  apply int_of_float_opp.
Qed.

(** The price band of a negative budget: both bounds are negative or
    zero, and the lower one lies strictly above the upper one. *)
Lemma negative_budget_band b :
  - 2 ^ 49 < b < 0 ->
  int_mul_float (PInt b) f0_8 = Ok (- (4 * - b / 5))
  /\ int_mul_float (PInt b) f1_2 = Ok (- (6 * - b / 5))
  /\ - (6 * - b / 5) < - (4 * - b / 5).
Proof.
  intros Hb. change (2 ^ 49) with 562949953421312 in Hb.
  assert (Hpos : 0 <= - b < 2 ^ 49)
    by (change (2 ^ 49) with 562949953421312; lia).
  split; [| split].
  - replace b with (- - b) at 1 by lia.
    unfold f0_8. rewrite (int_mul_float_opp (- b)). fold f0_8.
    rewrite int_mul_0_8 by exact Hpos. reflexivity.
  - replace b with (- - b) at 1 by lia.
    unfold f1_2. rewrite (int_mul_float_opp (- b)). fold f1_2.
    rewrite int_mul_1_2 by exact Hpos. reflexivity.
  - clear Hpos.
    Z.div_mod_to_equations. lia.
Qed.

(** The brand the builder returns is a string. *)
Lemma build_filters_brand profile f :
  build_filters_from_profile profile = Ok f -> exists s, get f "brand" = PStr s.
Proof.
  unfold build_filters_from_profile.
  destruct (int_mul_float _ f0_8) as [lo|]; [| discriminate].
  destruct (int_mul_float _ f1_2) as [hi|]; [| discriminate].
  cbn [mbind result_bind bind].
  destruct (str_lower _) as [lowered|]; [| discriminate].
  cbn [mbind result_bind bind].
  destruct (contains "prefer" lowered); cbn [mbind result_bind bind];
    (destruct (ge_int _ 5) as [large|]; [| discriminate]);
    cbn [mbind result_bind bind]; intros [= <-];
    eexists; get_simpl; reflexivity.
Qed.

(** The filters the builder returns are filters the query accepts. *)
Lemma build_filters_well_typed profile f :
  build_filters_from_profile profile = Ok f -> DbSearch.well_typed f.
Proof.
  intros Hf.
  destruct (build_filters_brand profile f Hf) as [s Eb].
  destruct (build_filters_fields profile f Hf)
    as (lo & hi & y & m & _ & _ & G1 & G2 & G3 & G4 & _ & G5 & G6 & _).
  unfold DbSearch.well_typed. rewrite Eb, G1, G2, G3, G4, G5, G6. simpl. tauto.
Qed.

(** X13. On a typed profile the builder and the query
    compose: the builder returns filters in which the brand is a string
    and each of the six bounds the query reads is an integer, the year
    bounds and the mileage bounds in order, and [search_with_fallback]
    raises nothing on these filters, for any store and any limit that is
    not negative. *)
Theorem builder_filters_searchable profile store limit :
  typed_profile profile -> 0 <= limit ->
  exists f s lo hi y m df,
    build_filters_from_profile profile = Ok f
    /\ get f "brand" = PStr s
    /\ get f "min_price" = PInt lo /\ get f "max_price" = PInt hi
    /\ get f "min_year" = PInt y /\ get f "max_year" = PInt 2025 /\ y <= 2025
    /\ get f "min_mileage" = PInt 0 /\ get f "max_mileage" = PInt m /\ 0 <= m
    /\ DbSearch.search_with_fallback store (Some f) limit = Ok df.
Proof.
  intros Ht Hl.
  destruct (build_filters_returns profile Ht) as [f Hf].
  destruct (build_filters_brand profile f Hf) as [s Eb].
  destruct (build_filters_fields profile f Hf)
    as (lo & hi & y & m & _ & _ & G1 & G2 & G3 & G4 & Hy & G5 & G6 & Hm).
  pose proof (build_filters_well_typed profile f Hf) as Hw.
  destruct (DbSearchProofs.build_where_typed f Hw) as [w Ew].
  destruct (DbSearchMore.fallback_returns store (Some f) limit w Hl Ew) as [df Hdf].
  exists f, s, lo, hi, y, m, df.
  repeat (split; [first [assumption | lia] |]). exact Hdf.
Qed.

Lemma builder_filters_searchable_witness :
  exists f s lo hi y m df,
    build_filters_from_profile demo_profile = Ok f
    /\ get f "brand" = PStr s
    /\ get f "min_price" = PInt lo /\ get f "max_price" = PInt hi
    /\ get f "min_year" = PInt y /\ get f "max_year" = PInt 2025 /\ y <= 2025
    /\ get f "min_mileage" = PInt 0 /\ get f "max_mileage" = PInt m /\ 0 <= m
    /\ DbSearch.search_with_fallback DbSearch.demo_store (Some f) 80 = Ok df.
Proof.
  apply (builder_filters_searchable demo_profile DbSearch.demo_store 80).
  - vm_compute. tauto.
  - lia.
Defined.

(** X14. For a negative budget above [-2^49] on a typed
    profile, the builder returns a price band whose lower bound lies
    strictly above its upper bound, the first query on these filters
    returns no row, and [search_with_fallback] answers with the cheapest
    rows of the whole store: no preference of the profile has an effect
    on what is shown. *)
Theorem negative_budget_shows_cheapest profile b store limit :
  typed_profile profile -> profile !! "budget_sgd" = Some (PInt b) ->
  - 2 ^ 49 < b < 0 -> 0 <= limit ->
  exists f lo hi,
    build_filters_from_profile profile = Ok f
    /\ get f "min_price" = PInt lo /\ get f "max_price" = PInt hi /\ hi < lo
    /\ DbSearch.search_cars_in_duckdb store (Some f) limit = Ok []
    /\ DbSearch.search_with_fallback store (Some f) limit
       = Ok (take (Z.to_nat limit) (merge_sort DbSearch.price_le store)).
Proof.
  intros Ht Hp Hb Hl.
  destruct (build_filters_returns profile Ht) as [f Hf].
  destruct (build_filters_fields profile f Hf)
    as (lo & hi & y & m & Elo & Ehi & G1 & G2 & _).
  unfold get_default in Elo, Ehi. rewrite Hp in Elo, Ehi.
  destruct (negative_budget_band b Hb) as (Flo & Fhi & Hlt).
  rewrite Flo in Elo. rewrite Fhi in Ehi.
  injection Elo as <-. injection Ehi as <-.
  destruct (DbSearchProofs.build_where_typed f (build_filters_well_typed profile f Hf))
    as [w Ew].
  destruct (DbSearchBand.inverted_fallback store f w limit _ _ Ew Hl G1 G2 Hlt)
    as [S1 S4].
  exists f, (- (4 * - b / 5)), (- (6 * - b / 5)).
  repeat (split; [assumption |]). exact S4.
Qed.

Lemma negative_budget_shows_cheapest_witness :
  exists f lo hi,
    build_filters_from_profile QuerySpec.negative_profile = Ok f
    /\ get f "min_price" = PInt lo /\ get f "max_price" = PInt hi /\ hi < lo
    /\ DbSearch.search_cars_in_duckdb DbSearch.demo_store (Some f) 80 = Ok []
    /\ DbSearch.search_with_fallback DbSearch.demo_store (Some f) 80
       = Ok (take (Z.to_nat 80) (merge_sort DbSearch.price_le DbSearch.demo_store)).
Proof.
  apply (negative_budget_shows_cheapest QuerySpec.negative_profile (-100)).
  - vm_compute. tauto.
  - reflexivity.
  - split; [vm_compute; reflexivity | lia].
  - lia.
Defined.

End BuilderPipeline.

(** ** value_model.py: further properties *)

Module ValueModelMore.
Import ValueModel ValueModelProofs RankSpec.
Local Open Scope Q_scope.

(** *** Components and score stay in range *)

Lemma known_in_column (col : list fval) v x :
  In v col -> known v = Some x -> In (Some x) (map known col).
Proof. intros Hv Hx. rewrite <- Hx. apply in_map, Hv. Qed.

Lemma norm_at_range col reverse v a :
  In v col -> norm_at col reverse v = Some a -> 0 <= a <= 1.
Proof.
  intros Hv. unfold norm_at.
  destruct (column_cases col)
    as [[-> _] | (lo & hi & -> & -> & -> & Hmin & Hmax
                  & [[-> _] | (-> & Hlt & _)])].
  - intros [= <-]. unfold half. split; discriminate.
  - intros [= <-]. unfold half. split; discriminate.
  - destruct (known v) as [x|] eqn:Hx; [| discriminate].
    pose proof (known_in_column col v x Hv Hx) as Hin.
    pose proof (proj2 Hmin x Hin) as Hlo. pose proof (proj2 Hmax x Hin) as Hhi.
    assert (H0 : 0 <= (x - lo) / (hi - lo)) by (apply Qle_shift_div_l; lra).
    assert (H1 : (x - lo) / (hi - lo) <= 1) by (apply Qle_shift_div_r; lra).
    destruct reverse; intros [= <-]; lra.
Qed.

Lemma composite_range vp vm vd vy s :
  (forall a, vp = Some a -> 0 <= a <= 1) -> (forall a, vm = Some a -> 0 <= a <= 1) ->
  (forall a, vd = Some a -> 0 <= a <= 1) -> (forall a, vy = Some a -> 0 <= a <= 1) ->
  composite vp vm vd vy = Some s -> 0 <= s <= 100.
Proof.
  intros Hp Hm Hd Hy.
  destruct vp as [a|], vm as [b|], vd as [c|], vy as [d|]; try discriminate.
  specialize (Hp a eq_refl). specialize (Hm b eq_refl).
  specialize (Hd c eq_refl). specialize (Hy d eq_refl).
  simpl. intros [= <-]. unfold w_price, w_mileage, w_depreciation, w_year. lra.
Qed.

Lemma row_in_column field (df : list Listing) i r :
  (forall l, field (ensure_numeric l) = coerce_cell (field l)) ->
  (exists l, df !! i = Some l /\ r = ensure_numeric l) ->
  In (to_numeric (field r)) (column field df).
Proof.
  intros Hf (l & El & ->). rewrite Hf, to_numeric_coerce.
  apply list_elem_of_In, list_elem_of_lookup. exists i.
  apply column_lookup, El.
Qed.

(** X16. Every component the scorer gives a listing lies
    between 0 and 1 and every value score between 0 and 100, on every
    batch. *)
Theorem value_scores_in_range df i r :
  compute_value_scores df !! i = Some r ->
  (forall a, value_price r = Some a -> 0 <= a <= 1)
  /\ (forall a, value_mileage r = Some a -> 0 <= a <= 1)
  /\ (forall a, value_depreciation r = Some a -> 0 <= a <= 1)
  /\ (forall a, value_year r = Some a -> 0 <= a <= 1)
  /\ (forall s, value_score r = Some s -> 0 <= s <= 100).
Proof.
  intros Hr.
  destruct (scored_row df i r Hr) as (El & Ep & Em & Ed & Ey & Es & _).
  assert (Hp : forall a, value_price r = Some a -> 0 <= a <= 1).
  { intros a Ha. rewrite Ep in Ha.
    exact (norm_at_range _ _ _ a
             (row_in_column price_sgd df i _ (fun _ => eq_refl) El) Ha). }
  assert (Hm : forall a, value_mileage r = Some a -> 0 <= a <= 1).
  { intros a Ha. rewrite Em in Ha.
    exact (norm_at_range _ _ _ a
             (row_in_column mileage_km df i _ (fun _ => eq_refl) El) Ha). }
  assert (Hd : forall a, value_depreciation r = Some a -> 0 <= a <= 1).
  { intros a Ha. rewrite Ed in Ha.
    exact (norm_at_range _ _ _ a
             (row_in_column depreciation_per_year df i _ (fun _ => eq_refl) El) Ha). }
  assert (Hy : forall a, value_year r = Some a -> 0 <= a <= 1).
  { intros a Ha. rewrite Ey in Ha.
    exact (norm_at_range _ _ _ a
             (row_in_column year df i _ (fun _ => eq_refl) El) Ha). }
  repeat (split; [assumption |]).
  intros s Hs. rewrite Es in Hs.
  exact (composite_range _ _ _ _ s Hp Hm Hd Hy Hs).
Qed.

Lemma value_scores_in_range_witness :
  exists r,
    compute_value_scores demo_batch !! 1%nat = Some r
    /\ forall s, value_score r = Some s -> 0 <= s <= 100.
Proof.
  eexists. split; [reflexivity |].
  apply (value_scores_in_range demo_batch 1%nat). reflexivity.
Defined.

(** *** The best and the worst of a column *)

Lemma norm_at_extremes col reverse v x :
  ~ degenerate col -> known v = Some x ->
  (is_min col x -> feq (norm_at col reverse v) (Some (if reverse then 1 else 0)))
  /\ (is_max col x -> feq (norm_at col reverse v) (Some (if reverse then 0 else 1))).
Proof.
  intros Hnd Hx. unfold norm_at. rewrite Hx.
  destruct (column_cases col)
    as [[_ Hdeg] | (lo & hi & -> & -> & -> & Hmin & Hmax
                    & [[_ Hdeg] | (-> & Hlt & _)])];
    [contradiction | contradiction |].
  split.
  - intros Hm.
    assert (E : x == lo).
    { pose proof (proj2 Hm lo (proj1 Hmin)). pose proof (proj2 Hmin x (proj1 Hm)). lra. }
    assert (Hn : (x - lo) / (hi - lo) == 0) by (rewrite E; field; lra).
    destruct reverse; simpl; rewrite Hn; reflexivity.
  - intros Hm.
    assert (E : x == hi).
    { pose proof (proj2 Hm hi (proj1 Hmax)). pose proof (proj2 Hmax x (proj1 Hm)). lra. }
    assert (Hn : (x - lo) / (hi - lo) == 1) by (rewrite E; field; lra).
    destruct reverse; simpl; rewrite Hn; reflexivity.
Qed.

(** X17. In a batch whose known prices are not all the same, a
    listing with the lowest known price gets the price component 1 and
    one with the highest gets 0; with years that are not all the same,
    the newest listing gets the year component 1 and the oldest 0. *)
Theorem cheapest_and_newest_score_one df i r :
  compute_value_scores df !! i = Some r ->
  (forall p, ~ degenerate (column price_sgd df) ->
             known (to_numeric (price_sgd (listing r))) = Some p ->
             (is_min (column price_sgd df) p -> feq (value_price r) (Some 1))
             /\ (is_max (column price_sgd df) p -> feq (value_price r) (Some 0)))
  /\ (forall y, ~ degenerate (column year df) ->
                known (to_numeric (year (listing r))) = Some y ->
                (is_max (column year df) y -> feq (value_year r) (Some 1))
                /\ (is_min (column year df) y -> feq (value_year r) (Some 0))).
Proof.
  intros Hr.
  destruct (scored_row df i r Hr) as (_ & Ep & _ & _ & Ey & _).
  rewrite Ep, Ey. split.
  - intros p Hnd Hp.
    exact (norm_at_extremes (column price_sgd df) true _ p Hnd Hp).
  - intros y Hnd Hy.
    destruct (norm_at_extremes (column year df) false _ y Hnd Hy) as [H0 H1].
    split; assumption.
Qed.

Lemma cheapest_and_newest_score_one_witness :
  exists r,
    compute_value_scores demo_batch !! 0%nat = Some r
    /\ feq (value_price r) (Some 1).
Proof.
  eexists. split; [reflexivity |].
  apply (proj1 (cheapest_and_newest_score_one demo_batch 0%nat _ eq_refl) 85000).
  - intros H. specialize (H 85000 95000). simpl in H.
    assert (E : 85000 == 95000) by (apply H; tauto). discriminate E.
  - reflexivity.
  - split; [simpl; tauto |].
    intros y [H | [H | [H | []]]]; injection H as <-; discriminate.
Defined.

(** *** Dense ranks *)

Lemma above_spec x y : Qle_bool y x = false <-> x < y.
Proof.
  split.
  - intros H. apply Qnot_le_lt. intros Hle. apply Qle_bool_iff in Hle. congruence.
  - intros H. destruct (Qle_bool y x) eqn:E; [| reflexivity].
    apply Qle_bool_iff in E. lra.
Qed.

Lemma differs_spec x y : Qeq_bool x y = false <-> ~ x == y.
Proof.
  split; [apply Qeq_bool_neq |].
  intros H. destruct (Qeq_bool x y) eqn:E; [| reflexivity].
  apply Qeq_bool_iff in E. contradiction.
Qed.

Lemma filter_agree (P R : Q -> Prop) `{!forall y, Decision (P y)}
    `{!forall y, Decision (R y)} (l : list Q) :
  (forall y, In y l -> (P y <-> R y)) -> filter P l = filter R l.
Proof.
  induction l as [|a l IH]; intros Hag; [reflexivity |].
  rewrite !filter_cons.
  pose proof (Hag a (or_introl eq_refl)) as Ha.
  rewrite IH by (intros y Hy; apply Hag; right; exact Hy).
  destruct (decide (P a)), (decide (R a)); tauto.
Qed.

Lemma filter_swap (P R : Q -> Prop) `{!forall y, Decision (P y)}
    `{!forall y, Decision (R y)} (l : list Q) :
  filter P (filter R l) = filter R (filter P l).
Proof.
  induction l as [|a l IH]; [reflexivity |].
  rewrite !filter_cons.
  destruct (decide (P a)) as [Hp|Hp], (decide (R a)) as [Hr|Hr];
    rewrite ?filter_cons;
    repeat match goal with
           | |- context [decide ?X] => destruct (decide X); try contradiction
           end;
    rewrite IH; reflexivity.
Qed.

Lemma filter_absorb (P R : Q -> Prop) `{!forall y, Decision (P y)}
    `{!forall y, Decision (R y)} (l : list Q) :
  (forall y, In y l -> P y -> R y) -> filter P (filter R l) = filter P l.
Proof.
  induction l as [|a l IH]; intros Himp; [reflexivity |].
  rewrite !filter_cons.
  pose proof (Himp a (or_introl eq_refl)) as Ha.
  assert (IH' : filter P (filter R l) = filter P l)
    by (apply IH; intros y Hy; apply Himp; right; exact Hy).
  destruct (decide (R a)) as [Hr|Hr], (decide (P a)) as [Hp|Hp];
    rewrite ?filter_cons;
    repeat match goal with
           | |- context [decide ?X] => destruct (decide X); try contradiction
           end;
    rewrite ?IH'; try reflexivity; tauto.
Qed.

(** Removing duplicates commutes with a filter that does not tell equal
    numbers apart. *)
Lemma distinct_filter (P : Q -> Prop) `{!forall y, Decision (P y)} (l : list Q) :
  (forall a b, a == b -> P a -> P b) ->
  distinct (filter P l) = filter P (distinct l).
Proof.
  intros Hresp. induction l as [|x l IH]; [reflexivity |].
  rewrite filter_cons. destruct (decide (P x)) as [Hx|Hx].
  - cbn [distinct]. rewrite filter_cons.
    destruct (decide (P x)); [| contradiction].
    f_equal. rewrite IH. symmetry. apply filter_swap.
  - cbn [distinct]. rewrite filter_cons.
    destruct (decide (P x)); [contradiction |].
    rewrite IH. symmetry. apply filter_absorb.
    intros y _ Hpy. apply differs_spec. intros E. apply Hx.
    apply (Hresp y x); [symmetry; exact E | exact Hpy].
Qed.

Lemma filter_length_le (P R : Q -> Prop) `{!forall y, Decision (P y)}
    `{!forall y, Decision (R y)} (l : list Q) :
  (forall y, In y l -> P y -> R y) ->
  (length (filter P l) <= length (filter R l))%nat.
Proof.
  induction l as [|a l IH]; intros Himp; [simpl; lia |].
  rewrite !filter_cons.
  assert (IH' : (length (filter P l) <= length (filter R l))%nat)
    by (apply IH; intros y Hy; apply Himp; right; exact Hy).
  pose proof (Himp a (or_introl eq_refl)) as Ha.
  destruct (decide (P a)), (decide (R a)); simpl; try lia. tauto.
Qed.

Lemma filter_length_lt (P R : Q -> Prop) `{!forall y, Decision (P y)}
    `{!forall y, Decision (R y)} (l : list Q) y :
  (forall z, In z l -> P z -> R z) -> In y l -> R y -> ~ P y ->
  (length (filter P l) < length (filter R l))%nat.
Proof.
  induction l as [|a l IH]; intros Himp Hy Hr Hp; [destruct Hy |].
  rewrite !filter_cons.
  assert (Hle : (length (filter P l) <= length (filter R l))%nat)
    by (apply filter_length_le; intros z Hz; apply Himp; right; exact Hz).
  pose proof (Himp a (or_introl eq_refl)) as Ha.
  destruct Hy as [-> | Hy].
  - destruct (decide (P y)); [contradiction |].
    destruct (decide (R y)); [simpl; lia | contradiction].
  - assert (IH' : (length (filter P l) < length (filter R l))%nat)
      by (apply IH; [intros z Hz; apply Himp; right; exact Hz | assumption ..]).
    destruct (decide (P a)), (decide (R a)); simpl; try lia. tauto.
Qed.

Lemma distinct_covers x l : In x l -> exists y, In y (distinct l) /\ y == x.
Proof.
  induction l as [|a l IH]; intros Hx; [destruct Hx |].
  destruct Hx as [-> | Hx].
  - exists x. split; [left; reflexivity | reflexivity].
  - destruct (IH Hx) as (y & Hy & E).
    destruct (Qeq_bool a y) eqn:Ea.
    + exists a. split; [left; reflexivity |].
      apply Qeq_bool_iff in Ea. rewrite Ea. exact E.
    + exists y. split; [| exact E]. right.
      apply list_elem_of_In, list_elem_of_filter. split; [exact Ea |].
      apply list_elem_of_In, Hy.
Qed.

Lemma distinct_in y l : In y (distinct l) -> In y l.
Proof.
  revert y. induction l as [|a l IH]; intros y Hy; [destruct Hy |].
  destruct Hy as [-> | Hy]; [left; reflexivity |].
  right. apply IH. apply list_elem_of_In in Hy.
  apply list_elem_of_filter in Hy as [_ Hy]. apply list_elem_of_In, Hy.
Qed.

Lemma distinct_length l : (length (distinct l) <= length l)%nat.
Proof.
  induction l as [|a l IH]; [simpl; lia |].
  simpl. pose proof (length_filter (fun y => Qeq_bool a y = false) (distinct l)). lia.
Qed.

Lemma higher_filter x present :
  higher x present = length (filter (fun y => Qle_bool y x = false) (distinct present)).
Proof.
  unfold higher, above. rewrite distinct_filter; [reflexivity |].
  intros a b E Ha. apply above_spec. apply above_spec in Ha. rewrite <- E. exact Ha.
Qed.

Lemma higher_same x y present : x == y -> higher x present = higher y present.
Proof.
  intros E. rewrite !higher_filter. f_equal. apply filter_agree.
  intros z _. rewrite !above_spec, E. tauto.
Qed.

Lemma higher_less x y present :
  In y present -> x < y -> (higher y present < higher x present)%nat.
Proof.
  intros Hy Hlt. rewrite !higher_filter.
  destruct (distinct_covers y present Hy) as (z & Hz & E).
  apply (filter_length_lt _ _ _ z).
  - intros a _. rewrite !above_spec. lra.
  - exact Hz.
  - apply above_spec. lra.
  - rewrite above_spec. lra.
Qed.

Lemma higher_bound x present :
  In x present -> (higher x present < length present)%nat.
Proof.
  intros Hx. rewrite higher_filter.
  destruct (distinct_covers x present Hx) as (z & Hz & E).
  pose proof (distinct_length present).
  pose proof (length_filter (fun y => Qle_bool y x = false) (distinct present)) as Hle.
  assert (Hlt : (length (filter (fun y => Qle_bool y x = false) (distinct present))
                 < length (filter (fun _ : Q => True) (distinct present)))%nat).
  { apply (filter_length_lt _ _ _ z); [tauto | exact Hz | exact I |].
    rewrite above_spec. lra. }
  pose proof (length_filter (fun _ : Q => True) (distinct present)). lia.
Qed.

Lemma higher_zero x present :
  higher x present = 0%nat <-> forall y, In y present -> y <= x.
Proof.
  unfold higher, above. split.
  - intros H y Hy.
    destruct (Qle_bool y x) eqn:E; [apply Qle_bool_iff, E |].
    assert (Hin : In y (filter (fun y => Qle_bool y x = false) present)).
    { apply list_elem_of_In, list_elem_of_filter. split; [exact E |].
      apply list_elem_of_In, Hy. }
    destruct (distinct_covers _ _ Hin) as (z & Hz & _).
    destruct (distinct _); [destruct Hz | discriminate H].
  - intros H.
    assert (E : filter (fun y => Qle_bool y x = false) present = []).
    { apply list_eq. intros k. rewrite lookup_nil.
      destruct (filter _ present !! k) as [y|] eqn:Ek; [| reflexivity].
      apply list_elem_of_lookup_2, list_elem_of_filter in Ek as [Ey Hy].
      apply above_spec in Ey. apply list_elem_of_In in Hy.
      specialize (H y Hy). lra. }
    rewrite E. reflexivity.
Qed.

(** The rank of a row that has a score. *)
Lemma rank_at scores i x :
  at_label scores i = Some x ->
  at_label (rank_dense_desc scores) i
  = Some (1 + Z.of_nat (higher x (omap id scores)))%Z
  /\ In x (omap id scores).
Proof.
  unfold at_label, rank_dense_desc. rewrite lookup_map.
  destruct (scores !! i) as [[y|]|] eqn:E; try discriminate.
  intros [= ->]. split; [reflexivity |].
  apply list_elem_of_In, list_elem_of_omap. exists (Some x).
  split; [apply (list_elem_of_lookup_2 _ i), E | reflexivity].
Qed.

Lemma present_length (scores : list (option Q)) :
  (length (omap id scores) <= length scores)%nat.
Proof.
  induction scores as [|[x|] l IH].
  - simpl. lia.
  - change (omap id (Some x :: l)) with (x :: omap id l). simpl length. lia.
  - change (omap id (None :: l)) with (omap id l). simpl length. lia.
Qed.

(** The score and rank columns as the rows of the scored frame hold
    them. *)
Lemma row_score_rank df i r :
  compute_value_scores df !! i = Some r ->
  value_score r = at_label (score_column df) i
  /\ value_rank r = at_label (rank_dense_desc (score_column df)) i.
Proof.
  intros Hr. destruct (scored_row_raw df i r Hr) as (l & _ & ->).
  split; reflexivity.
Qed.

Lemma present_is_row df x :
  In x (omap id (score_column df)) <->
  exists m rm, compute_value_scores df !! m = Some rm /\ value_score rm = Some x.
Proof.
  rewrite <- list_elem_of_In, list_elem_of_omap. split.
  - intros (o & Ho & Eo). destruct o as [y|]; [| discriminate Eo].
    injection Eo as ->. apply list_elem_of_lookup in Ho as [m Hm].
    assert (Hlen : (m < length (compute_value_scores df))%nat).
    { pose proof (lookup_lt_Some _ _ _ Hm) as H.
      unfold score_column in H. rewrite length_imap in H.
      unfold compute_value_scores. cbv zeta. rewrite length_imap, length_map. exact H. }
    apply lookup_lt_is_Some in Hlen as [rm Hrm].
    exists m, rm. split; [exact Hrm |].
    rewrite (proj1 (row_score_rank df m rm Hrm)). unfold at_label. rewrite Hm.
    reflexivity.
  - intros (m & rm & Hrm & Hs).
    rewrite (proj1 (row_score_rank df m rm Hrm)) in Hs. unfold at_label in Hs.
    destruct (score_column df !! m) as [o|] eqn:E; [| discriminate Hs].
    exists o. split; [apply (list_elem_of_lookup_2 _ m), E | exact Hs].
Qed.

(** X18. The rank follows the score. Among the listings of a
    batch that have a score, each has a rank between 1 and the size of
    the batch; equal scores share a rank, a strictly higher score has a
    strictly smaller rank, and the rank is 1 exactly for a score that no
    score of the batch exceeds. *)
Theorem ranks_follow_scores df i j ri rj si sj :
  compute_value_scores df !! i = Some ri ->
  compute_value_scores df !! j = Some rj ->
  value_score ri = Some si -> value_score rj = Some sj ->
  exists ki kj,
    value_rank ri = Some ki /\ value_rank rj = Some kj
    /\ (1 <= ki <= Z.of_nat (length df))%Z
    /\ (si == sj -> ki = kj)
    /\ (si < sj -> (kj < ki)%Z)
    /\ (ki = 1%Z <->
        forall m rm sm, compute_value_scores df !! m = Some rm ->
                        value_score rm = Some sm -> sm <= si).
Proof.
  intros Hi Hj Hsi Hsj.
  destruct (row_score_rank df i ri Hi) as [Ei Ri].
  destruct (row_score_rank df j rj Hj) as [Ej Rj].
  rewrite Ei in Hsi. rewrite Ej in Hsj.
  destruct (rank_at _ _ _ Hsi) as [Ki Pi]. destruct (rank_at _ _ _ Hsj) as [Kj Pj].
  rewrite <- Ri in Ki. rewrite <- Rj in Kj.
  eexists _, _. split; [exact Ki |]. split; [exact Kj |].
  split; [| split; [| split]].
  - pose proof (higher_bound si _ Pi). pose proof (present_length (score_column df)) as Hl.
    unfold score_column in Hl at 2. rewrite length_imap in Hl. lia.
  - intros E. rewrite (higher_same si sj _ E). reflexivity.
  - intros Hlt. pose proof (higher_less si sj _ Pj Hlt). lia.
  - split.
    + intros H m rm sm Hm Hsm.
      assert (H0 : higher si (omap id (score_column df)) = 0%nat) by lia.
      apply (proj1 (higher_zero _ _) H0).
      apply present_is_row. exists m, rm. split; assumption.
    + intros H.
      assert (H0 : higher si (omap id (score_column df)) = 0%nat).
      { apply higher_zero. intros y Hy.
        apply present_is_row in Hy as (m & rm & Hm & Hsm). exact (H m rm y Hm Hsm). }
      rewrite H0. reflexivity.
Qed.

Lemma ranks_follow_scores_witness :
  exists ri rj ki kj,
    compute_value_scores demo_batch !! 1%nat = Some ri
    /\ compute_value_scores demo_batch !! 0%nat = Some rj
    /\ value_rank ri = Some ki /\ value_rank rj = Some kj
    /\ (kj < ki)%Z.
Proof.
  destruct (ranks_follow_scores demo_batch 1%nat 0%nat _ _ _ _
              eq_refl eq_refl eq_refl eq_refl)
    as (ki & kj & Ki & Kj & _ & _ & Hlt & _).
  eexists _, _, ki, kj.
  split; [reflexivity |]. split; [reflexivity |].
  split; [exact Ki |]. split; [exact Kj |].
  apply Hlt. vm_compute. reflexivity.
Defined.

(** *** A batch with nothing to compare *)

(** X19. When each of the four columns is degenerate, as it
    is for a batch of one listing, every listing gets 0.5 for each
    component, the value score 50 and the rank 1, whatever it holds. *)
Theorem degenerate_batch_is_neutral df i r :
  degenerate (column price_sgd df) -> degenerate (column mileage_km df) ->
  degenerate (column depreciation_per_year df) -> degenerate (column year df) ->
  compute_value_scores df !! i = Some r ->
  value_price r = Some half /\ value_mileage r = Some half
  /\ value_depreciation r = Some half /\ value_year r = Some half
  /\ feq (value_score r) (Some 50)
  /\ value_rank r = Some 1%Z.
Proof.
  intros Dp Dm Dd Dy Hr.
  assert (Hall : forall m rm, compute_value_scores df !! m = Some rm ->
                   value_price rm = Some half /\ value_mileage rm = Some half
                   /\ value_depreciation rm = Some half /\ value_year rm = Some half
                   /\ value_score rm = composite (Some half) (Some half)
                                                 (Some half) (Some half)).
  { intros m rm Hm.
    destruct (scored_row df m rm Hm) as (_ & Ep & Em & Ed & Ey & Es & _).
    rewrite norm_at_degenerate in Ep, Em, Ed, Ey by assumption.
    rewrite Es, Ep, Em, Ed, Ey. repeat split; reflexivity. }
  destruct (Hall i r Hr) as (Ep & Em & Ed & Ey & Es).
  repeat (split; [assumption |]).
  split; [rewrite Es; vm_compute; reflexivity |].
  destruct (row_score_rank df i r Hr) as [Ei Ri].
  rewrite Ei in Es. destruct (rank_at _ _ _ Es) as [Ki _].
  rewrite Ri, Ki.
  assert (H0 : higher (100 * (w_price * half + w_mileage * half
                              + w_depreciation * half + w_year * half))
                 (omap id (score_column df)) = 0%nat).
  { apply higher_zero. intros y Hy.
    apply present_is_row in Hy as (m & rm & Hm & Hsm).
    destruct (Hall m rm Hm) as (_ & _ & _ & _ & Esm).
    rewrite Esm in Hsm. injection Hsm as <-. apply Qle_refl. }
  simpl composite. rewrite H0. reflexivity.
Qed.

Lemma degenerate_batch_is_neutral_witness :
  exists r,
    compute_value_scores [mkListing CText (CNum 40000) CNull (CInf false)] !! 0%nat
    = Some r
    /\ feq (value_score r) (Some 50) /\ value_rank r = Some 1%Z.
Proof.
  eexists. split; [reflexivity |].
  apply (degenerate_batch_is_neutral
           [mkListing CText (CNum 40000) CNull (CInf false)] 0%nat);
    try reflexivity;
    intros x y Hx Hy; simpl in Hx, Hy;
    repeat match goal with
           | H : _ \/ _ |- _ => destruct H
           | H : False |- _ => destruct H
           | H : Some _ = Some _ |- _ => injection H as <-
           | H : None = Some _ |- _ => discriminate H
           end; reflexivity.
Defined.

End ValueModelMore.
